(** * prepare_dataset.py: combining Project Gutenberg files into shards

    A shallow embedding of [src/prepare_dataset.py] and the properties of
    its document aggregation pipeline.

    Conventions of the embedding:
    - a Python [str] is a list of Unicode code points ([list N]);
    - the content of a file on disk is a list of bytes ([list byte]);
    - Python [int]s are [Z];
    - a raised exception is the [Raise] constructor of [exc];
    - [langdetect.detect] is an external classifier: it is a parameter
      [detect] of everything that calls it, [None] standing for a raised
      [LangDetectException];
    - the [results] dictionary of the language pre-scan is a [gmap]. *)

From Stdlib Require Import ZArith NArith QArith List Lia ZifyBool Bool.
From Stdlib.Strings Require Import String Ascii Byte.
From Stdlib Require Import DecimalString Sorted.
From stdpp Require Import base list gmap strings.
From Equations Require Import Equations.
From Equations.Prop Require Import Logic.
Import ListNotations.

Local Open Scope Z_scope.

(** ** Python strings *)

Definition codepoint := N.
Definition str := list codepoint.

(** The code point of ['\n']. *)
Definition nl : codepoint := 10%N.

(** A literal of the development read as a Python string, one code point
    per character of the literal. *)
Definition py (s : string) : str := map Byte.to_N (list_byte_of_string s).

(** [str.isspace] on one character, which is also the class [\s] of [re]
    on [str] patterns: the characters for which CPython's
    [Py_UNICODE_ISSPACE] holds. *)
Definition is_space (c : codepoint) : bool :=
  ((9 <=? c) && (c <=? 13) || (28 <=? c) && (c <=? 32)
   || (c =? 133) || (c =? 160) || (c =? 5760)
   || (8192 <=? c) && (c <=? 8202)
   || (c =? 8232) || (c =? 8233) || (c =? 8239) || (c =? 8287)
   || (c =? 12288))%N.

(** [s.split('\n')]: never the empty list. *)
Fixpoint split_lines (s : str) : list str :=
  match s with
  | [] => [[]]
  | c :: s' =>
      if (c =? nl)%N then [] :: split_lines s'
      else match split_lines s' with
           | l :: ls => (c :: l) :: ls
           | [] => [[c]]
           end
  end.

(** [sep.join(parts)]. *)
Fixpoint join (sep : str) (parts : list str) : str :=
  match parts with
  | [] => []
  | [p] => p
  | p :: rest => p ++ sep ++ join sep rest
  end.

(** [s.lstrip()], [s.rstrip()] and [s.strip()] without argument. *)
Fixpoint lstrip (s : str) : str :=
  match s with
  | c :: s' => if is_space c then lstrip s' else s
  | [] => []
  end.

Definition rstrip (s : str) : str := rev (lstrip (rev s)).

Definition strip (s : str) : str := rstrip (lstrip s).

(** ** remove_gutenberg_boilerplate (lines 15-22) *)

Definition remove_gutenberg_boilerplate (text : str) : str :=
  let lines := split_lines text in
  if (length lines <=? 15)%nat then text
  else join [nl] (skipn 40 lines).

(** The number of leading lines that do not reach the result of
    [remove_gutenberg_boilerplate] on a text that is stripped, and the
    number of lines that do. *)
Definition lines_removed (text : str) : Z :=
  Z.of_nat (length (split_lines text))
  - Z.of_nat (length (skipn 40 (split_lines text))).

Definition lines_kept (text : str) : Z :=
  Z.of_nat (length (skipn 40 (split_lines text))).

(** ** Regular expressions

    The part of [re] that line 171 uses: patterns made of single
    characters taken from a class, greedy repetitions of such a character,
    and concatenation.  [bt r s k] is the backtracking matcher: it matches
    [r] at the start of [s] and hands the rest of the text to the
    continuation [k], trying the alternatives in the order of [re], a
    greedy repetition taking one more character before it tries to
    stop. *)

Inductive regex :=
| Char (p : codepoint -> bool)
| Star_char (p : codepoint -> bool)
| Cat (r1 r2 : regex).

Fixpoint star_char (p : codepoint -> bool) (s : str)
    (k : str -> option str) : option str :=
  match s with
  | c :: s' =>
      if p c then
        match star_char p s' k with
        | Some rest => Some rest
        | None => k s
        end
      else k s
  | [] => k []
  end.

Fixpoint bt (r : regex) (s : str) (k : str -> option str) : option str :=
  match r with
  | Char p =>
      match s with
      | c :: s' => if p c then k s' else None
      | [] => None
      end
  | Star_char p => star_char p s k
  | Cat r1 r2 => bt r1 s (fun s' => bt r2 s' k)
  end.

(** The text after the match of [r] at the start of [s], if [r] matches
    there. *)
Definition match_at (r : regex) (s : str) : option str := bt r s Some.

(** [re.sub(r, repl, s)] for a pattern that matches no empty string and a
    replacement without group references: scan from the left; where the
    pattern matches, emit the replacement and resume after the match;
    elsewhere copy one character.  [fuel] bounds the number of steps. *)
Fixpoint re_sub_steps (fuel : nat) (r : regex) (repl s : str) : str :=
  match fuel with
  | O => s
  | S fuel' =>
      match s with
      | [] => []
      | c :: s' =>
          match match_at r s with
          | Some rest =>
              if (length rest <? length s)%nat
              then repl ++ re_sub_steps fuel' r repl rest
              else c :: re_sub_steps fuel' r repl s'
          | None => c :: re_sub_steps fuel' r repl s'
          end
      end
  end.

(** Every step consumes a character, so the length of the text is fuel
    enough. *)
Definition re_sub (r : regex) (repl s : str) : str :=
  re_sub_steps (length s) r repl s.

(** ** Blank-line normalisation (line 171) *)

Definition is_newline (c : codepoint) : bool := (c =? nl)%N.

(** The pattern [\n\s*\n]. *)
Definition blank_run : regex :=
  Cat (Char is_newline) (Cat (Star_char is_space) (Char is_newline)).

(** [re.sub(r'\n\s*\n', '\n\n', content)]. *)
Definition normalize_blank_lines (content : str) : str :=
  re_sub blank_run [nl; nl] content.

(** The same substitution written out for this pattern, the form the
    proofs work on.  [match_ws_nl] is the matcher of the tail [\s*\n] of
    the pattern; [collapse] is the scan. *)
Fixpoint match_ws_nl (s : str) : option str :=
  match s with
  | [] => None
  | c :: s' =>
      if is_space c then
        match match_ws_nl s' with
        | Some rest => Some rest
        | None => if (c =? nl)%N then Some s' else None
        end
      else None
  end.

Equations? collapse (s : str) : str by wf (length s) lt :=
  collapse [] := [];
  collapse (c :: s') with (c =? nl)%N := {
    | false := c :: collapse s'
    | true with inspect (match_ws_nl s') := {
        | exist _ (Some rest) E := nl :: nl :: collapse rest
        | exist _ None E := c :: collapse s' } }.
Proof.
  all: simpl; try lia.
  clear collapse. revert rest E.
  induction s' as [|d s' IH]; intros rest; simpl; [discriminate|].
  destruct (is_space d); [|discriminate].
  destruct (match_ws_nl s') as [r|].
  - intros [= <-]. specialize (IH r eq_refl). lia.
  - destruct (d =? nl)%N; [|discriminate]. intros [= <-]. lia.
Qed.

(** ** Text codecs

    The codecs behind [open(..., encoding=...)] and [str.encode]. *)

Inductive encoding := utf_8 | latin1 | us_ascii.

Definition is_continuation (b : N) : bool := ((128 <=? b) && (b <=? 191))%N.

(** Strict UTF-8 decoding: overlong forms, surrogates, code points above
    U+10FFFF, stray continuation bytes and truncated sequences are all
    decoding errors. *)
Fixpoint decode_utf_8 (bs : list N) : option str :=
  match bs with
  | [] => Some []
  | b0 :: t0 =>
      if (b0 <? 128)%N then cons b0 <$> decode_utf_8 t0
      else if ((194 <=? b0) && (b0 <=? 223))%N then
        match t0 with
        | b1 :: t1 =>
            if is_continuation b1
            then cons ((b0 - 192) * 64 + (b1 - 128))%N <$> decode_utf_8 t1
            else None
        | _ => None
        end
      else if ((224 <=? b0) && (b0 <=? 239))%N then
        match t0 with
        | b1 :: b2 :: t2 =>
            let c := ((b0 - 224) * 4096 + (b1 - 128) * 64 + (b2 - 128))%N in
            if is_continuation b1 && is_continuation b2
               && (2048 <=? c)%N && negb ((55296 <=? c) && (c <=? 57343))%N
            then cons c <$> decode_utf_8 t2
            else None
        | _ => None
        end
      else if ((240 <=? b0) && (b0 <=? 244))%N then
        match t0 with
        | b1 :: b2 :: b3 :: t3 =>
            let c := ((b0 - 240) * 262144 + (b1 - 128) * 4096
                      + (b2 - 128) * 64 + (b3 - 128))%N in
            if is_continuation b1 && is_continuation b2 && is_continuation b3
               && (65536 <=? c)%N && (c <=? 1114111)%N
            then cons c <$> decode_utf_8 t3
            else None
        | _ => None
        end
      else None
  end.

(** Latin-1 maps every byte to the code point of the same number. *)
Definition decode_latin1 (bs : list N) : option str := Some bs.

Definition decode_ascii (bs : list N) : option str :=
  if forallb (fun b => (b <? 128)%N) bs then Some bs else None.

(** [bytes.decode(enc)]; [None] is a [UnicodeDecodeError]. *)
Definition decode (enc : encoding) (bs : list byte) : option str :=
  let ns := map Byte.to_N bs in
  match enc with
  | utf_8 => decode_utf_8 ns
  | latin1 => decode_latin1 ns
  | us_ascii => decode_ascii ns
  end.

(** The code points that are Unicode scalar values: all up to U+10FFFF
    but the surrogates. *)
Definition is_scalar_value (c : codepoint) : bool :=
  ((c <? 55296) || (57344 <=? c) && (c <=? 1114111))%N.

(** The UTF-8 encoding of one code point, and [s.encode("utf-8")].  Python
    raises on a surrogate; the texts encoded here come out of [decode],
    which yields scalar values only. *)
Definition utf8_encode_char (c : codepoint) : list N :=
  (if c <? 128 then [c]
   else if c <? 2048 then [192 + c / 64; 128 + c mod 64]
   else if c <? 65536 then
     [224 + c / 4096; 128 + (c / 64) mod 64; 128 + c mod 64]
   else [240 + c / 262144; 128 + (c / 4096) mod 64;
         128 + (c / 64) mod 64; 128 + c mod 64])%N.

Definition utf8_encode (s : str) : list N := flat_map utf8_encode_char s.

(** Text-mode reading translates the line endings ['\r\n'] and ['\r'] to
    ['\n'] ([open] with its default [newline=None]). *)
Fixpoint universal_newlines (s : str) : str :=
  match s with
  | [] => []
  | c :: s' =>
      if (c =? 13)%N then
        match s' with
        | d :: s'' => if (d =? nl)%N then nl :: universal_newlines s''
                      else nl :: universal_newlines s'
        | [] => [nl]
        end
      else c :: universal_newlines s'
  end.

(** [open(path, "r", encoding=enc).read()] on a file with content [bs]. *)
Definition read_text (enc : encoding) (bs : list byte) : option str :=
  universal_newlines <$> decode enc bs.

(** ** Exceptions *)

Inductive exn := UnicodeDecodeError | FileNotFoundError | ZeroDivisionError.

Inductive exc (A : Type) :=
| Ok (a : A)
| Raise (e : exn).
Arguments Ok {A} a.
Arguments Raise {A} e.

#[global] Instance exc_ret : MRet exc := fun A a => Ok a.

#[global] Instance exc_bind : MBind exc := fun A B k m =>
  match m with
  | Ok a => k a
  | Raise e => Raise e
  end.

#[global] Instance exc_fmap : FMap exc := fun A B f m =>
  match m with
  | Ok a => Ok (f a)
  | Raise e => Raise e
  end.

(** A [for] loop whose body may raise: the first exception ends it. *)
Fixpoint for_each {S A} (body : S -> A -> exc S) (xs : list A) (s : S) : exc S :=
  match xs with
  | [] => Ok s
  | x :: xs' => s' ← body s x; for_each body xs' s'
  end.

(** ** The shard accumulator of combine_files (lines 144-146, 178-193) *)

(** One written file [combined_<shard_no>.txt]: [shard_text] is the text
    handed to [target_file.write], [shard_docs] the list it was joined
    from. *)
Record shard_file := {
  shard_no : Z;
  shard_docs : list str;
  shard_text : str
}.

Record accumulator := {
  current_content : list str;
  current_size : Z;
  file_counter : Z;
  written : list shard_file
}.

(** Lines 144-146. *)
Definition init : accumulator :=
  {| current_content := []; current_size := 0; file_counter := 1;
     written := [] |}.

(** Lines 180-182 and 191-193: write [separator.join(current_content)] to
    [combined_<file_counter>.txt]. *)
Definition write_shard (separator : str) (st : accumulator) : list shard_file :=
  written st ++ [ {| shard_no := file_counter st;
                     shard_docs := current_content st;
                     shard_text := join separator (current_content st) |} ].

Definition estimated_size (content : str) : Z :=
  Z.of_nat (length (utf8_encode content)).

(** Lines 178-188: one accepted document enters the accumulator. *)
Definition add (max_size_mb : Z) (separator : str)
    (st : accumulator) (content : str) : accumulator :=
  if current_size st + estimated_size content >? max_size_mb * 1024 * 1024 then
    {| current_content := [content];
       current_size := estimated_size content;
       file_counter := file_counter st + 1;
       written := write_shard separator st |}
  else
    {| current_content := current_content st ++ [content];
       current_size := current_size st + estimated_size content;
       file_counter := file_counter st;
       written := written st |}.

(** Lines 190-193: the flush after the loop. *)
Definition finalize (separator : str) (st : accumulator) : accumulator :=
  match current_content st with
  | [] => st
  | _ :: _ =>
      {| current_content := current_content st;
         current_size := current_size st;
         file_counter := file_counter st;
         written := write_shard separator st |}
  end.

(** The accumulator alone, fed a sequence of cleaned documents. *)
Definition feed (max_size_mb : Z) (separator : str) (docs : list str) : accumulator :=
  fold_left (add max_size_mb separator) docs init.

Definition shards (max_size_mb : Z) (separator : str) (docs : list str) : list shard_file :=
  written (finalize separator (feed max_size_mb separator docs)).

(** The sum of the estimated sizes of a shard's documents. *)
Definition shard_size (docs : list str) : Z :=
  fold_right (fun d n => estimated_size d + n) 0 docs.

(** A shard respects the budget when its documents sum to at most
    [max_size_mb * 1024 * 1024] bytes, or when it is one document that is
    alone larger than that. *)
Definition shard_within_budget (max_size_mb : Z) (docs : list str) : Prop :=
  shard_size docs <= max_size_mb * 1024 * 1024
  \/ exists d, docs = [d] /\ max_size_mb * 1024 * 1024 < estimated_size d.

(** What the loop keeps true of the accumulator, for any [max_size_mb]:
    [current_size] is the size of [current_content], and the shard in
    progress and every written shard are empty or respect the budget. *)
Definition shard_ok (max_size_mb : Z) (docs : list str) : Prop :=
  docs = [] \/ shard_within_budget max_size_mb docs.

Definition accumulator_ok (max_size_mb : Z) (st : accumulator) : Prop :=
  current_size st = shard_size (current_content st)
  /\ shard_ok max_size_mb (current_content st)
  /\ Forall (fun f => shard_ok max_size_mb (shard_docs f)) (written st).

(** ** The file system

    The files that [open] can read: a map from path to content.  A path
    outside the map raises [FileNotFoundError]. *)

Definition open_read (fs : gmap string (list byte)) (enc : encoding)
    (file_path : string) : exc str :=
  match fs !! file_path with
  | None => Raise FileNotFoundError
  | Some bs =>
      match read_text enc bs with
      | Some content => Ok content
      | None => Raise UnicodeDecodeError
      end
  end.

(** [os.path.basename]: what follows the last ['/']. *)
Fixpoint has_slash (p : string) : bool :=
  match p with
  | EmptyString => false
  | String c p' => Ascii.eqb c "/" || has_slash p'
  end.

Fixpoint basename (p : string) : string :=
  match p with
  | EmptyString => EmptyString
  | String c p' => if has_slash p then basename p' else p
  end.

(** ** Results and logs *)

(** The lines that [combine_files] sends to [tqdm.write] (lines 156, 161
    and 175). *)
Inductive log_line :=
| Warning_fallback_encoding (file_path : string)
| Skipping_not_english (file_path : string)
| Skipping_too_short (file_path : string).

(** [language_stats] (line 148). *)
Record language_stats := { en : Z; other : Z }.

(** Everything [combine_files] changes while it runs. *)
Record pipeline := {
  shard_acc : accumulator;
  stats : language_stats;
  log : list log_line
}.

(** What the per-document part of the loop body (lines 160-176) decides. *)
Inductive verdict :=
| Rejected_language
| Rejected_short
| Accepted (cleaned : str).

(** The [error] field of an entry of [check_english_files]; the text of
    the exception that some of the messages end with is left out. *)
Inductive scan_error :=
| Empty_file
| Error_with_fallback_encoding
| Language_detection_error
| Error_processing_file.

(** One entry of the [results] dictionary of [check_english_files]. *)
Record lang_result := {
  is_english : bool;
  language : string;
  error : option scan_error
}.

(** What [clean_and_verify_gutenberg] prints (lines 220-223): lengths in
    characters and lines, and the share of removed characters.  The share
    is kept as the exact quotient that Python rounds to a float. *)
Record cleanup_report := {
  original_chars : Z;
  original_line_count : Z;
  cleaned_chars : Z;
  cleaned_line_count : Z;
  removed_chars : Z;
  removed_percent : Q
}.

(** [a / b * 100] on two lengths: [ZeroDivisionError] when [b] is 0. *)
Definition percent_of (a b : Z) : exc Q :=
  if b =? 0 then Raise ZeroDivisionError
  else Ok ((inject_Z a / inject_Z b) * inject_Z 100)%Q.

(** ** clean_and_verify_gutenberg (lines 201-236) *)

Definition clean_and_verify_gutenberg (fs : gmap string (list byte))
    (file_path : string) (fallback_encoding : encoding)
  : exc (str * str * cleanup_report) :=
  original_content ←
    match open_read fs utf_8 file_path with
    | Raise UnicodeDecodeError => open_read fs fallback_encoding file_path
    | r => r
    end;
  let cleaned_content := remove_gutenberg_boilerplate original_content in
  let original_lines := split_lines original_content in
  let cleaned_lines := split_lines cleaned_content in
  let removed :=
    Z.of_nat (length original_content) - Z.of_nat (length cleaned_content) in
  share ← percent_of removed (Z.of_nat (length original_content));
  Ok (original_content, cleaned_content,
      {| original_chars := Z.of_nat (length original_content);
         original_line_count := Z.of_nat (length original_lines);
         cleaned_chars := Z.of_nat (length cleaned_content);
         cleaned_line_count := Z.of_nat (length cleaned_lines);
         removed_chars := removed;
         removed_percent := share |}).

Section Classifier.

(** [langdetect.detect]: the language code of a sample, or [None] for a
    raised [LangDetectException]. *)
Variable detect : str -> option string.

(** *** is_english_using_langdetect (lines 131-138) *)
Definition is_english_using_langdetect (text : str) : bool :=
  let sample := firstn 1000 text in
  match detect sample with
  | Some lang => String.eqb lang "en"
  | None => false
  end.

(** *** check_english_files (lines 24-95) *)

(** Lines 54-69 and 75-87: the sample is trimmed, an empty one is
    recorded as such, any other is classified.  [on_detect_error] is the
    entry of the handler that a [LangDetectException] reaches. *)
Definition classify_sample (on_detect_error : scan_error) (raw : str)
  : lang_result :=
  let content := strip raw in
  match content with
  | [] => {| is_english := false; language := "unknown";
             error := Some Empty_file |}
  | _ :: _ =>
      match detect content with
      | Some detected_lang =>
          {| is_english := String.eqb detected_lang "en";
             language := detected_lang; error := None |}
      | None =>
          {| is_english := false; language := "unknown";
             error := Some on_detect_error |}
      end
  end.

(** [read_1000 enc path] is the outcome of
    [open(path, 'r', encoding=enc).read(1000)].  It is a parameter: the
    read decodes the file buffer by buffer, so whether a malformed byte
    far behind the sample raises depends on the buffering. *)
Definition check_file (read_1000 : encoding -> string -> exc str)
    (file_path : string) : lang_result :=
  match read_1000 utf_8 file_path with
  | Ok raw => classify_sample Language_detection_error raw
  | Raise UnicodeDecodeError =>
      match read_1000 latin1 file_path with
      | Ok raw => classify_sample Error_with_fallback_encoding raw
      | Raise _ =>
          {| is_english := false; language := "unknown";
             error := Some Error_with_fallback_encoding |}
      end
  | Raise _ =>
      {| is_english := false; language := "unknown";
         error := Some Error_processing_file |}
  end.

(** The loop of lines 49-93 over the discovered files. *)
Definition check_english_files (read_1000 : encoding -> string -> exc str)
    (all_files : list string) : gmap string lang_result :=
  fold_left
    (fun results file_path =>
       <[basename file_path := check_file read_1000 file_path]> results)
    all_files ∅.

(** *** combine_files (lines 140-199) *)

(** Lines 160-176 on the decoded content of one file. *)
Definition filter_document (content : str) : verdict :=
  if negb (is_english_using_langdetect content) then Rejected_language
  else
    let content := remove_gutenberg_boilerplate content in
    let content := normalize_blank_lines content in
    if (length (strip content) <? 100)%nat then Rejected_short
    else Accepted content.

Section Combine.

Variable fs : gmap string (list byte).
Variable max_size_mb : Z.
Variable separator : str.
Variable fallback_encoding : encoding.

(** Lines 151-158: the read of one file. *)
Definition read_file (st : pipeline) (file_path : string)
  : exc (str * pipeline) :=
  match open_read fs utf_8 file_path with
  | Ok content => Ok (content, st)
  | Raise UnicodeDecodeError =>
      content ← open_read fs fallback_encoding file_path;
      Ok (content,
          {| shard_acc := shard_acc st; stats := stats st;
             log := log st ++ [Warning_fallback_encoding file_path] |})
  | Raise e => Raise e
  end.

(** Lines 150-188: the loop body. *)
Definition combine_step (st : pipeline) (file_path : string) : exc pipeline :=
  '(content, st) ← read_file st file_path;
  match filter_document content with
  | Rejected_language =>
      Ok {| shard_acc := shard_acc st;
            stats := {| en := en (stats st); other := other (stats st) + 1 |};
            log := log st ++ [Skipping_not_english file_path] |}
  | Rejected_short =>
      Ok {| shard_acc := shard_acc st;
            stats := {| en := en (stats st) + 1; other := other (stats st) |};
            log := log st ++ [Skipping_too_short file_path] |}
  | Accepted cleaned =>
      Ok {| shard_acc := add max_size_mb separator (shard_acc st) cleaned;
            stats := {| en := en (stats st) + 1; other := other (stats st) |};
            log := log st |}
  end.

Definition start : pipeline :=
  {| shard_acc := init; stats := {| en := 0; other := 0 |}; log := [] |}.

(** The whole function: the loop, the final flush, and [file_counter]
    as the returned value. *)
Definition combine_files (file_paths : list string) : exc (Z * pipeline) :=
  st ← for_each combine_step file_paths start;
  let acc := finalize separator (shard_acc st) in
  Ok (file_counter acc,
      {| shard_acc := acc; stats := stats st; log := log st |}).

End Combine.

(** *** The main block (lines 257-273), without [--check_languages] and
    [--test_cleanup]: the number printed by line 273 in
    ["<n> file(s) saved in ..."], and the files on disk. *)
Definition main (fs : gmap string (list byte)) (all_files : list string)
    (max_size_mb : Z) : exc (Z * list shard_file) :=
  '(file_counter, st) ←
    combine_files fs max_size_mb (py "<|endoftext|>") latin1 all_files;
  Ok (file_counter, written (shard_acc st)).

End Classifier.

(** ** The reasons of the design's FilterDecision

    How the outcomes of the two language checks read as the reasons
    [non_english], [too_short], [decode_error], [classifier_error] and
    [empty]. *)
Inductive reason :=
| non_english | too_short | decode_error | classifier_error | empty.

(** The pre-scan records a rejected file with an [error] field. *)
Definition scan_reason (r : lang_result) : option reason :=
  if is_english r then None
  else match error r with
       | Some Empty_file => Some empty
       | Some Language_detection_error => Some classifier_error
       | Some Error_with_fallback_encoding => Some decode_error
       | Some Error_processing_file => Some decode_error
       | None => Some non_english
       end.

(** The combination tells a rejection by its log line. *)
Definition skip_reason (l : log_line) : option reason :=
  match l with
  | Skipping_not_english _ => Some non_english
  | Skipping_too_short _ => Some too_short
  | Warning_fallback_encoding _ => None
  end.

(** ** Counting the log *)

Definition is_skipping_not_english (l : log_line) : bool :=
  match l with
  | Skipping_not_english _ => true
  | _ => false
  end.

Definition is_skipping_too_short (l : log_line) : bool :=
  match l with
  | Skipping_too_short _ => true
  | _ => false
  end.

(** The number of lines of a log that satisfy [p]. *)
Definition count_lines (p : log_line -> bool) (l : list log_line) : Z :=
  Z.of_nat (length (List.filter p l)).

(** What a document that passed the filter is. *)
Definition accepted_from (detect : str -> option string) (d : str) : Prop :=
  exists content, filter_document detect content = Accepted d.

(** ** The display of clean_and_verify_gutenberg (lines 225-234) *)

(** [f"{line[:80]}{'...' if len(line) > 80 else ''}"]. *)
Definition shorten (line : str) : str :=
  firstn 80 line ++ (if (80 <? length line)%nat then py "..." else []).

(** [f"{n:02d}"] for a number that is not negative. *)
Definition two_digits (n : N) : str :=
  let digits := py (NilZero.string_of_uint (N.to_uint n)) in
  if (length digits <? 2)%nat then 48%N :: digits else digits.

(** Lines 226-228: the lines printed under ["Removed lines:"]. *)
Definition removed_lines_shown (original_content : str) : list str :=
  imap (fun i line => two_digits (N.of_nat (i + 1)) ++ py ". " ++ shorten line)
    (firstn 15 (split_lines original_content)).

(** Lines 231-234: the lines printed under
    ["First 5 lines of cleaned content:"], the blank ones left out. *)
Definition cleaned_preview (cleaned_content : str) : list str :=
  map (fun line => py "> " ++ shorten line)
    (List.filter (fun line => match strip line with [] => false | _ => true end)
       (firstn 5 (split_lines cleaned_content))).

(** ** Dictionaries in the order of insertion

    A Python [dict] keeps its keys in the order they were first set; an
    assignment to a key that is present changes the value in place. *)

Fixpoint dict_get {V : Type} (k : string) (d : list (string * V)) : option V :=
  match d with
  | [] => None
  | (k', v) :: d' => if String.eqb k' k then Some v else dict_get k d'
  end.

Fixpoint dict_set {V : Type} (k : string) (v : V) (d : list (string * V))
  : list (string * V) :=
  match d with
  | [] => [(k, v)]
  | (k', v') :: d' =>
      if String.eqb k' k then (k, v) :: d' else (k', v') :: dict_set k v d'
  end.

(** [check_english_files] with the order of its [results] kept: the items
    of the dictionary it returns. *)
Definition check_english_files_items (detect : str -> option string)
    (read_1000 : encoding -> string -> exc str) (all_files : list string)
  : list (string * lang_result) :=
  fold_left
    (fun results file_path =>
       dict_set (basename file_path) (check_file detect read_1000 file_path)
         results)
    all_files [].

(** ** print_summary (lines 97-129) *)

(** What [print_summary] prints: the three counts, the languages with
    their numbers of files in the order of the report, and the sample of
    files that are not English. *)
Record summary := {
  total : Z;
  english_count : Z;
  non_english_count : Z;
  language_distribution : list (string * Z);
  non_english_sample : list (string * string)
}.

(** Lines 109-114: one more file for the language of an entry. *)
Definition count_language (language_counts : list (string * Z))
    (result : lang_result) : list (string * Z) :=
  let lang := language result in
  let language_counts :=
    match dict_get lang language_counts with
    | None => dict_set lang 0 language_counts
    | Some _ => language_counts
    end in
  match dict_get lang language_counts with
  | Some n => dict_set lang (n + 1) language_counts
  | None => language_counts
  end.

(** [sorted(items, key=lambda x: x[1], reverse=True)]: a stable sort by
    decreasing count, items of equal count staying in their order. *)
Fixpoint insert_by_count (x : string * Z) (l : list (string * Z))
  : list (string * Z) :=
  match l with
  | [] => [x]
  | y :: l' => if snd y >? snd x then y :: insert_by_count x l' else x :: l
  end.

Definition sorted_by_count (items : list (string * Z)) : list (string * Z) :=
  fold_right insert_by_count [] items.

Definition print_summary (results : list (string * lang_result)) : summary :=
  let total := Z.of_nat (length results) in
  let english_count :=
    Z.of_nat (length (List.filter (fun kv => is_english (snd kv)) results)) in
  let non_english_count := total - english_count in
  let language_counts := fold_left count_language (map snd results) [] in
  {| total := total;
     english_count := english_count;
     non_english_count := non_english_count;
     language_distribution := sorted_by_count language_counts;
     non_english_sample :=
       if non_english_count >? 0 then
         firstn 10
           (map (fun kv => (fst kv, language (snd kv)))
              (List.filter (fun kv => negb (is_english (snd kv))) results))
       else [] |}.

(** The sum of the counts of a distribution, and the count of one
    language in it (0 when the language is absent). *)
Definition sum_counts (d : list (string * Z)) : Z :=
  fold_right (fun kv s => snd kv + s) 0 d.

Definition count_of (lang : string) (d : list (string * Z)) : Z :=
  match dict_get lang d with
  | Some n => n
  | None => 0
  end.

(** ** File names *)

(** [name.endswith(suffix)]. *)
Definition endswith (name suffix : string) : bool :=
  let n := String.length name in
  let m := String.length suffix in
  (m <=? n)%nat && String.eqb (substring (n - m) m name) suffix.

(** The candidate files of prepare_dataset.py (lines 45 and 258):
    [name.endswith((".txt", ".txt.utf8"))]. *)
Definition is_text_file (name : string) : bool :=
  endswith name ".txt" || endswith name ".txt.utf8".

(** The candidate files of pretokenize.py (line 34):
    [name.endswith((".txt"))]. *)
Definition is_txt_file (name : string) : bool := endswith name ".txt".

(** [os.path.join(path, name)] on POSIX. *)
Definition os_path_join (path name : string) : string :=
  if String.prefix "/" name then name
  else if String.eqb path "" || endswith path "/" then path ++ name
  else path ++ "/" ++ name.

(** [[os.path.join(path, name) for path, subdirs, files in os.walk(dir)
      for name in files if candidate(name)]]: [walk] is what [os.walk]
    yields, a directory path with the names of its files at a time. *)
Definition discover (candidate : string -> bool)
    (walk : list (string * list string)) : list string :=
  flat_map (fun entry =>
              map (os_path_join (fst entry)) (List.filter candidate (snd entry)))
    walk.

(** [os.path.splitext] on a name without ['/']: the name is cut at its
    last dot, unless only dots come before it. *)
Fixpoint split_last_dot (p : string) : option (string * string) :=
  match p with
  | EmptyString => None
  | String c p' =>
      match split_last_dot p' with
      | Some (root, ext) => Some (String c root, ext)
      | None => if Ascii.eqb c "." then Some (EmptyString, p) else None
      end
  end.

Fixpoint only_dots (p : string) : bool :=
  match p with
  | EmptyString => true
  | String c p' => Ascii.eqb c "." && only_dots p'
  end.

Definition splitext (p : string) : string * string :=
  match split_last_dot p with
  | Some (root, ext) => if only_dots root then (p, EmptyString) else (root, ext)
  | None => (p, EmptyString)
  end.

(** ** pretokenize.py *)

Module Pretokenize.

(** What the run has done so far: the saved [.pt] files by name in the
    output directory, [total_tokens], and the progress lines printed by
    line 63, each with [i], [total_files] and [total_tokens]. *)
Record state := {
  saved : gmap string (list Z);
  total_tokens : Z;
  progress : list (Z * Z * Z)
}.

(** Lines 52-53: the name of the output file. *)
Definition output_name (file_path : string) : string :=
  fst (splitext (basename file_path)) ++ ".pt".

(** [enumerate(xs, 1)]. *)
Definition enumerate_from_1 {A : Type} (xs : list A) : list (Z * A) :=
  imap (fun i x => (Z.of_nat i + 1, x)) xs.

Section Tokenizer.

(** [tokenizer.encode(text, allowed_special={"<|endoftext|>"})]: the
    token ids of a text.  With the default [gpt2] encoding, whose only
    special token is the allowed one, the call does not raise. *)
Variable encode : str -> list Z.

(** Lines 42-63: the loop body. *)
Definition tokenize_step (fs : gmap string (list byte)) (total_files : Z)
    (st : state) (item : Z * string) : exc state :=
  let i := fst item in
  let file_path := snd item in
  content ← open_read fs utf_8 file_path;
  let text := content ++ py " <|endoftext|> " in
  let tokens := encode text in
  let total := total_tokens st + Z.of_nat (length tokens) in
  Ok {| saved := <[output_name file_path := tokens]> (saved st);
        total_tokens := total;
        progress :=
          if (i mod 10 =? 0) || (i =? total_files)
          then progress st ++ [(i, total_files, total)]
          else progress st |}.

(** Lines 32-63 of [main]: the files found, then the loop. *)
Definition main (fs : gmap string (list byte))
    (walk : list (string * list string)) : exc state :=
  let all_files := discover is_txt_file walk in
  let total_files := Z.of_nat (length all_files) in
  for_each (tokenize_step fs total_files) (enumerate_from_1 all_files)
    {| saved := ∅; total_tokens := 0; progress := [] |}.

(** The tokens that the run computes for one file: those of its text
    followed by the end marker. *)
Definition tokens_of (fs : gmap string (list byte)) (file_path : string)
  : list Z :=
  match open_read fs utf_8 file_path with
  | Ok content => encode (content ++ py " <|endoftext|> ")
  | Raise _ => []
  end.

End Tokenizer.

(** The number of tokens in the saved files. *)
Definition saved_token_count (m : gmap string (list Z)) : Z :=
  map_fold (fun _ tokens n => Z.of_nat (length tokens) + n) 0 m.

End Pretokenize.

(** ** Writing a text file *)

Definition byte_of_N (n : N) : byte :=
  match Byte.of_N n with
  | Some b => b
  | None => Byte.x00
  end.

(** The bytes that [target_file.write(text)] leaves in a file opened with
    [encoding="utf-8"], where the line separator is ['\n']. *)
Definition encode_file (text : str) : list byte :=
  map byte_of_N (utf8_encode text).

(** A text that can be written as UTF-8 and read back as it is: scalar
    values only, and no carriage return. *)
Definition plain_text (t : str) : Prop :=
  Forall (fun c => is_scalar_value c = true /\ c <> 13%N) t.

(** ** Sample data for the examples *)

(** A deterministic stand-in for the classifier: no letter in the sample
    is a detection failure (as langdetect fails on a text without
    features), a sample with an e-acute is French, any other is English. *)
Definition is_letter (c : codepoint) : bool :=
  ((65 <=? c) && (c <=? 90) || (97 <=? c) && (c <=? 122) || (192 <=? c) && (c <=? 591))%N.

Definition sample_detect (sample : str) : option string :=
  if negb (existsb is_letter sample) then None
  else if existsb (N.eqb 233) sample then Some "fr"%string
  else Some "en"%string.

(** A text of fifty lines. *)
Definition fifty_lines : str := join [nl] (repeat (py "line") 50).

(** A document of 1048577 bytes, one more than a budget of one mebibyte. *)
Definition oversized_doc : str := repeat 97%N (N.to_nat 1048577).

(** A small file system: a file that is not UTF-8 (a lone byte 0xFF), a
    French text, a file of blanks, and an English text that is long
    enough to be kept. *)
Definition english_text : str :=
  py "It was the best of times, it was the worst of times, it was the age of wisdom, it was the age of foolishness.".

Definition sample_fs : gmap string (list byte) :=
  <["bad.txt"%string := [Byte.xff]]>
  (<["fr.txt"%string :=
       list_byte_of_string "L'" ++ [Byte.xc3; Byte.xa9]
       ++ list_byte_of_string "tranger"]>
  (<["blank.txt"%string := list_byte_of_string "     "]>
  (<["en.txt"%string :=
       list_byte_of_string "It was the best of times, it was the worst of times, it was the age of wisdom, it was the age of foolishness."]>
   ∅))).

(** An empty file. *)
Definition empty_fs : gmap string (list byte) :=
  {[ "empty.txt"%string := [] ]}.

(** A reader of samples over a file system: the first 1000 characters of
    the decoded file. *)
Definition sample_reader (fs : gmap string (list byte))
    (enc : encoding) (file_path : string) : exc str :=
  firstn 1000 <$> open_read fs enc file_path.

(** A text of twenty lines. *)
Definition twenty_lines : str := join [nl] (repeat (py "line") 20).

(** A stand-in for the tokenizer: one token per character. *)
Definition sample_encode (text : str) : list Z := map Z.of_N text.

(** What a walk of a directory with three files yields. *)
Definition sample_walk : list (string * list string) :=
  [(""%string, ["en.txt"; "notes.md"; "fr.txt"]%string)].

(** * Properties *)

(** ** Lines *)

Lemma split_lines_nonempty (s : str) : split_lines s <> [].
Proof.
  destruct s as [|c s]; simpl; [discriminate|].
  destruct (c =? nl)%N; [discriminate|].
  destruct (split_lines s); discriminate.
Qed.

(** Joining the lines of a text with newlines gives the text back. *)
Lemma join_split_lines (s : str) : join [nl] (split_lines s) = s.
Proof.
  induction s as [|c s IH]; [reflexivity|].
  simpl. destruct (c =? nl)%N eqn:E.
  - apply N.eqb_eq in E. subst c.
    pose proof (split_lines_nonempty s) as Hne.
    destruct (split_lines s) as [|l ls]; [contradiction|].
    change (join [nl] ([] :: l :: ls)) with (nl :: join [nl] (l :: ls)).
    now rewrite IH.
  - pose proof (split_lines_nonempty s) as Hne.
    destruct (split_lines s) as [|l ls]; [contradiction|].
    destruct ls as [|l' ls].
    + simpl in *. now rewrite IH.
    + change (join [nl] ((c :: l) :: l' :: ls))
        with (c :: join [nl] (l :: l' :: ls)).
      now rewrite IH.
Qed.

Lemma remove_gutenberg_boilerplate_short (text : str) :
  (length (split_lines text) <= 15)%nat ->
  remove_gutenberg_boilerplate text = text.
Proof.
  intros H. unfold remove_gutenberg_boilerplate.
  destruct (Nat.leb_spec (length (split_lines text)) 15); [reflexivity|lia].
Qed.

Lemma remove_gutenberg_boilerplate_long (text : str) :
  (15 < length (split_lines text))%nat ->
  remove_gutenberg_boilerplate text = join [nl] (skipn 40 (split_lines text)).
Proof.
  intros H. unfold remove_gutenberg_boilerplate.
  destruct (Nat.leb_spec (length (split_lines text)) 15); [lia|reflexivity].
Qed.

(** C5 (as amended).  A text of at most 15 lines is returned unchanged; a
    longer one becomes its lines from index 40 on, joined by newlines.
    The lines that reach the result number [max(0, total - 40)]; the
    lines removed number [min(40, total)]. *)
Theorem remove_gutenberg_boilerplate_spec (text : str) :
  let total := Z.of_nat (length (split_lines text)) in
  (total <= 15 -> remove_gutenberg_boilerplate text = text) /\
  (15 < total ->
     remove_gutenberg_boilerplate text = join [nl] (skipn 40 (split_lines text))
     /\ lines_kept text = Z.max 0 (total - 40)
     /\ lines_removed text = Z.min 40 total).
Proof.
  intros total; subst total. split; intros H.
  - apply remove_gutenberg_boilerplate_short. lia.
  - split; [apply remove_gutenberg_boilerplate_long; lia|].
    unfold lines_kept, lines_removed. rewrite List.length_skipn. lia.
Qed.

Lemma remove_gutenberg_boilerplate_spec_witness :
  15 < Z.of_nat (length (split_lines fifty_lines))
  /\ remove_gutenberg_boilerplate fifty_lines
    = join [nl] (skipn 40 (split_lines fifty_lines))
  /\ lines_kept fifty_lines = Z.max 0 (50 - 40)
  /\ lines_removed fifty_lines = Z.min 40 50.
Proof.
  assert (H : 15 < Z.of_nat (length (split_lines fifty_lines)))
    by (vm_compute; reflexivity).
  split; [exact H|].
  exact (proj2 (remove_gutenberg_boilerplate_spec fifty_lines) H).
Defined.

(** C5 as stated fails: on a text of fifty lines the stripper removes 40
    lines, not [max(0, 50 - 40) = 10]. *)
Lemma lines_removed_is_not_the_remainder :
  15 < Z.of_nat (length (split_lines fifty_lines))
  /\ lines_removed fifty_lines = 40
  /\ lines_removed fifty_lines
     <> Z.max 0 (Z.of_nat (length (split_lines fifty_lines)) - 40).
Proof. vm_compute. repeat split; discriminate. Qed.

(** ** Blank-line normalisation *)

Lemma is_space_nl : is_space nl = true.
Proof. reflexivity. Qed.

Lemma collapse_cons (c : codepoint) (s : str) :
  collapse (c :: s) =
  if (c =? nl)%N then
    match match_ws_nl s with
    | Some rest => nl :: nl :: collapse rest
    | None => c :: collapse s
    end
  else c :: collapse s.
Proof.
  simp collapse.
  destruct (c =? nl)%N; simpl; [|reflexivity].
  destruct (match_ws_nl s); reflexivity.
Qed.

Lemma match_ws_nl_shorter (s rest : str) :
  match_ws_nl s = Some rest -> (length rest < length s)%nat.
Proof.
  revert rest; induction s as [|c s IH]; intros rest; simpl; [discriminate|].
  destruct (is_space c); [|discriminate].
  destruct (match_ws_nl s) as [r|].
  - intros [= <-]. specialize (IH r eq_refl). lia.
  - destruct (c =? nl)%N; [|discriminate]. intros [= <-]. lia.
Qed.

(** After a match the pattern's tail cannot match again at once: the
    match ended at the last newline of the whitespace run. *)
Lemma match_ws_nl_rest (s rest : str) :
  match_ws_nl s = Some rest -> match_ws_nl rest = None.
Proof.
  revert rest; induction s as [|c s IH]; intros rest; simpl; [discriminate|].
  destruct (is_space c); [|discriminate].
  destruct (match_ws_nl s) as [r|] eqn:E.
  - intros [= <-]. now apply IH.
  - destruct (c =? nl)%N; [|discriminate]. now intros [= <-].
Qed.

(** Where the tail of the pattern does not match, it does not match after
    normalisation either. *)
Lemma match_ws_nl_normalize_none (s : str) :
  match_ws_nl s = None -> match_ws_nl (collapse s) = None.
Proof.
  induction s as [|c s IH]; [reflexivity|].
  simpl. destruct (is_space c) eqn:Hsp.
  - destruct (match_ws_nl s) as [r|] eqn:E; [discriminate|].
    destruct (c =? nl)%N eqn:Hc; [discriminate|]. intros _.
    rewrite collapse_cons, Hc. simpl.
    now rewrite Hsp, IH, Hc.
  - intros _. rewrite collapse_cons.
    destruct (c =? nl)%N eqn:Hc.
    + apply N.eqb_eq in Hc. subst c. now rewrite is_space_nl in Hsp.
    + simpl. now rewrite Hsp.
Qed.

Lemma collapse_idempotent_upto (n : nat) :
  forall s : str, (length s < n)%nat ->
  collapse (collapse s) = collapse s.
Proof.
  induction n as [|n IH]; intros s Hlen; [lia|].
  destruct s as [|c s]; [reflexivity|].
  simpl in Hlen. rewrite (collapse_cons c s).
  destruct (c =? nl)%N eqn:Hc.
  - destruct (match_ws_nl s) as [rest|] eqn:E.
    + rewrite collapse_cons. change (nl =? nl)%N with true.
      cbv iota. simpl match_ws_nl.
      rewrite (match_ws_nl_normalize_none rest (match_ws_nl_rest s rest E)).
      rewrite IH; [reflexivity|]. apply match_ws_nl_shorter in E. lia.
    + rewrite collapse_cons, Hc.
      rewrite (match_ws_nl_normalize_none s E).
      rewrite IH; [reflexivity|lia].
  - rewrite collapse_cons, Hc.
    rewrite IH; [reflexivity|lia].
Qed.

Lemma collapse_idempotent (s : str) : collapse (collapse s) = collapse s.
Proof. apply (collapse_idempotent_upto (S (length s))). lia. Qed.

(** On the pattern of line 171 the general matcher is [match_ws_nl] after
    a first newline. *)
Lemma star_char_blank_tail (s : str) :
  star_char is_space s (fun s' => bt (Char is_newline) s' Some)
  = match_ws_nl s.
Proof.
  induction s as [|c s IH]; [reflexivity|].
  cbn [star_char match_ws_nl]. rewrite IH. cbn [bt]. unfold is_newline.
  destruct (is_space c) eqn:Hsp; [reflexivity|].
  destruct (c =? nl)%N eqn:Hc; [|reflexivity].
  apply N.eqb_eq in Hc. subst c. now rewrite is_space_nl in Hsp.
Qed.

Lemma match_at_blank_run (c : codepoint) (s : str) :
  match_at blank_run (c :: s)
  = if (c =? nl)%N then match_ws_nl s else None.
Proof.
  unfold match_at, blank_run. cbn [bt]. unfold is_newline at 1.
  destruct (c =? nl)%N; [|reflexivity].
  apply star_char_blank_tail.
Qed.

(** The general substitution and the scan written for the pattern agree. *)
Lemma re_sub_steps_collapse (fuel : nat) :
  forall s : str, (length s <= fuel)%nat ->
  re_sub_steps fuel blank_run [nl; nl] s = collapse s.
Proof.
  induction fuel as [|fuel IH]; intros s Hlen.
  - destruct s; [reflexivity|simpl in Hlen; lia].
  - destruct s as [|c s]; [reflexivity|].
    simpl in Hlen. cbn [re_sub_steps].
    rewrite match_at_blank_run, collapse_cons.
    destruct (c =? nl)%N; [|rewrite IH; [reflexivity|lia]].
    destruct (match_ws_nl s) as [rest|] eqn:E; [|rewrite IH; [reflexivity|lia]].
    pose proof (match_ws_nl_shorter s rest E) as Hshort.
    destruct (Nat.ltb_spec (length rest) (length (c :: s))) as [_|Hge];
      [|simpl in Hge; lia].
    rewrite IH; [reflexivity|lia].
Qed.

Lemma normalize_blank_lines_collapse (s : str) :
  normalize_blank_lines s = collapse s.
Proof. apply re_sub_steps_collapse. lia. Qed.

(** C8.  Normalising the blank lines twice gives the same text as
    normalising them once. *)
Theorem normalize_blank_lines_idempotent (s : str) :
  normalize_blank_lines (normalize_blank_lines s) = normalize_blank_lines s.
Proof.
  rewrite !normalize_blank_lines_collapse. apply collapse_idempotent.
Qed.

Example normalize_blank_lines_run :
  normalize_blank_lines (py "a" ++ [nl; 32%N; nl; 9%N; nl; 32%N] ++ py "b" ++ [nl] ++ py "c")
  = py "a" ++ [nl; nl; 32%N] ++ py "b" ++ [nl] ++ py "c".
Proof. vm_compute. reflexivity. Qed.

(** ** Codecs *)

Lemma byte_to_N_bound (b : byte) : (Byte.to_N b < 256)%N.
Proof. destruct b; reflexivity. Qed.

Lemma decode_utf_8_scalar_upto (n : nat) :
  forall (bs : list N) (s : str),
  (length bs < n)%nat ->
  decode_utf_8 bs = Some s ->
  Forall (fun c => is_scalar_value c = true) s.
Proof.
  induction n as [|n IH]; intros bs s Hlen; [lia|].
  destruct bs as [|b0 t0]; simpl.
  { intros [= <-]. constructor. }
  simpl in Hlen.
  destruct (N.ltb_spec b0 128) as [H0|H0].
  { destruct (decode_utf_8 t0) as [s0|] eqn:E; [|discriminate].
    intros [= <-]. constructor; [|apply (IH t0); [lia|exact E]].
    unfold is_scalar_value. destruct (N.ltb_spec b0 55296); [reflexivity|lia]. }
  destruct ((194 <=? b0)%N && (b0 <=? 223)%N) eqn:H2.
  { destruct t0 as [|b1 t1]; [discriminate|].
    unfold is_continuation.
    destruct ((128 <=? b1)%N && (b1 <=? 191)%N) eqn:C1; [|discriminate].
    destruct (decode_utf_8 t1) as [s1|] eqn:E; [|discriminate].
    intros [= <-]. constructor; [|apply (IH t1); [simpl in Hlen; lia|exact E]].
    unfold is_scalar_value.
    destruct (N.ltb_spec ((b0 - 192) * 64 + (b1 - 128)) 55296);
      [reflexivity|lia]. }
  destruct ((224 <=? b0)%N && (b0 <=? 239)%N) eqn:H3.
  { destruct t0 as [|b1 [|b2 t2]]; try discriminate.
    cbv zeta.
    destruct (is_continuation b1 && is_continuation b2
              && (2048 <=? (b0 - 224) * 4096 + (b1 - 128) * 64 + (b2 - 128))%N
              && negb ((55296 <=? (b0 - 224) * 4096 + (b1 - 128) * 64 + (b2 - 128))%N
                       && ((b0 - 224) * 4096 + (b1 - 128) * 64 + (b2 - 128) <=? 57343)%N))
      eqn:C; [|discriminate].
    destruct (decode_utf_8 t2) as [s2|] eqn:E; [|discriminate].
    intros [= <-]. constructor; [|apply (IH t2); [simpl in Hlen; lia|exact E]].
    unfold is_scalar_value, is_continuation in *.
    destruct (N.ltb_spec ((b0 - 224) * 4096 + (b1 - 128) * 64 + (b2 - 128)) 55296);
      [reflexivity|]. simpl. lia. }
  destruct ((240 <=? b0)%N && (b0 <=? 244)%N) eqn:H4; [|discriminate].
  destruct t0 as [|b1 [|b2 [|b3 t3]]]; try discriminate.
  cbv zeta.
  destruct (is_continuation b1 && is_continuation b2 && is_continuation b3
            && (65536 <=? (b0 - 240) * 262144 + (b1 - 128) * 4096
                          + (b2 - 128) * 64 + (b3 - 128))%N
            && ((b0 - 240) * 262144 + (b1 - 128) * 4096
                + (b2 - 128) * 64 + (b3 - 128) <=? 1114111)%N)
    eqn:C; [|discriminate].
  destruct (decode_utf_8 t3) as [s3|] eqn:E; [|discriminate].
  intros [= <-]. constructor; [|apply (IH t3); [simpl in Hlen; lia|exact E]].
  unfold is_scalar_value.
  destruct (N.ltb_spec ((b0 - 240) * 262144 + (b1 - 128) * 4096
                        + (b2 - 128) * 64 + (b3 - 128)) 55296);
    [reflexivity|]. simpl. lia.
Qed.

(** Every decoder yields Unicode scalar values only: the text of a file
    can always be encoded as UTF-8. *)
Lemma decode_scalar (enc : encoding) (bs : list byte) (s : str) :
  decode enc bs = Some s -> Forall (fun c => is_scalar_value c = true) s.
Proof.
  assert (Hbytes : Forall (fun c => is_scalar_value c = true)
                     (map Byte.to_N bs)).
  { apply List.Forall_forall. intros c Hc.
    apply in_map_iff in Hc as (b & <- & _).
    pose proof (byte_to_N_bound b). unfold is_scalar_value.
    destruct (N.ltb_spec (Byte.to_N b) 55296); [reflexivity|lia]. }
  destruct enc; simpl.
  - apply (decode_utf_8_scalar_upto (S (length (map Byte.to_N bs)))). lia.
  - unfold decode_latin1. now intros [= <-].
  - unfold decode_ascii. destruct (forallb _ _); [|discriminate].
    now intros [= <-].
Qed.

Lemma decode_utf_8_encode_char (c : codepoint) (bs : list N) :
  is_scalar_value c = true ->
  decode_utf_8 (utf8_encode_char c ++ bs) = cons c <$> decode_utf_8 bs.
Proof.
  intros Hc. unfold utf8_encode_char.
  assert (Hs : (c < 55296 \/ 57344 <= c <= 1114111)%N)
    by (unfold is_scalar_value in Hc; lia).
  clear Hc.
  destruct (N.ltb_spec c 128) as [H1|H1].
  { cbn [app decode_utf_8].
    destruct (N.ltb_spec c 128); [reflexivity|lia]. }
  pose proof (N.div_mod c 64 ltac:(lia)) as D64.
  pose proof (N.mod_lt c 64 ltac:(lia)) as M64.
  pose proof (N.le_0_l (c mod 64)) as P64.
  pose proof (N.le_0_l (c / 64)) as Q64.
  destruct (N.ltb_spec c 2048) as [H2|H2].
  { assert (Hq : (c / 64 < 32)%N) by (apply N.Div0.div_lt_upper_bound; lia).
    cbn [app decode_utf_8].
    destruct (N.ltb_spec (192 + c / 64) 128); [lia|].
    replace ((194 <=? 192 + c / 64)%N && (192 + c / 64 <=? 223)%N)
      with true by lia.
    unfold is_continuation.
    replace ((128 <=? 128 + c mod 64)%N && (128 + c mod 64 <=? 191)%N)
      with true by lia.
    replace ((192 + c / 64 - 192) * 64 + (128 + c mod 64 - 128))%N
      with c by lia.
    reflexivity. }
  pose proof (N.div_mod (c / 64) 64 ltac:(lia)) as D4096.
  pose proof (N.mod_lt (c / 64) 64 ltac:(lia)) as M4096.
  pose proof (N.le_0_l ((c / 64) mod 64)) as P4096.
  pose proof (N.le_0_l (c / 4096)) as Q4096.
  assert (E4096 : (c / 4096 = c / 64 / 64)%N)
    by (now rewrite N.Div0.div_div).
  destruct (N.ltb_spec c 65536) as [H3|H3].
  { assert (Hq : (c / 4096 < 16)%N) by (apply N.Div0.div_lt_upper_bound; lia).
    cbn [app decode_utf_8].
    destruct (N.ltb_spec (224 + c / 4096) 128); [lia|].
    replace ((194 <=? 224 + c / 4096)%N && (224 + c / 4096 <=? 223)%N)
      with false by lia.
    replace ((224 <=? 224 + c / 4096)%N && (224 + c / 4096 <=? 239)%N)
      with true by lia.
    cbv zeta. unfold is_continuation.
    replace ((224 + c / 4096 - 224) * 4096 + (128 + (c / 64) mod 64 - 128) * 64
             + (128 + c mod 64 - 128))%N with c by lia.
    match goal with |- (if ?b then _ else _) = _ =>
      replace b with true by lia end.
    reflexivity. }
  pose proof (N.div_mod (c / 4096) 64 ltac:(lia)) as D18.
  pose proof (N.mod_lt (c / 4096) 64 ltac:(lia)) as M18.
  pose proof (N.le_0_l ((c / 4096) mod 64)) as P18.
  pose proof (N.le_0_l (c / 262144)) as Q18.
  assert (E18 : (c / 262144 = c / 4096 / 64)%N)
    by (now rewrite N.Div0.div_div).
  assert (Hq : (c / 262144 < 5)%N) by (apply N.Div0.div_lt_upper_bound; lia).
  cbn [app decode_utf_8].
  destruct (N.ltb_spec (240 + c / 262144) 128); [lia|].
  replace ((194 <=? 240 + c / 262144)%N && (240 + c / 262144 <=? 223)%N)
    with false by lia.
  replace ((224 <=? 240 + c / 262144)%N && (240 + c / 262144 <=? 239)%N)
    with false by lia.
  replace ((240 <=? 240 + c / 262144)%N && (240 + c / 262144 <=? 244)%N)
    with true by lia.
  cbv zeta. unfold is_continuation.
  replace ((240 + c / 262144 - 240) * 262144
           + (128 + (c / 4096) mod 64 - 128) * 4096
           + (128 + (c / 64) mod 64 - 128) * 64
           + (128 + c mod 64 - 128))%N with c by lia.
  match goal with |- (if ?b then _ else _) = _ =>
    replace b with true by lia end.
  reflexivity.
Qed.

(** Encoding a text of scalar values as UTF-8 and decoding it gives the
    text back. *)
Lemma decode_utf_8_encode (s : str) :
  Forall (fun c => is_scalar_value c = true) s ->
  decode_utf_8 (utf8_encode s) = Some s.
Proof.
  induction 1 as [|c s Hc _ IH]; [reflexivity|].
  unfold utf8_encode in *. cbn [flat_map].
  rewrite (decode_utf_8_encode_char c _ Hc), IH. reflexivity.
Qed.

(** ** The shard accumulator *)

Lemma shard_size_app (l : list str) (d : str) :
  shard_size (l ++ [d]) = shard_size l + estimated_size d.
Proof.
  induction l as [|x l IH]; simpl; [lia|]. rewrite IH. lia.
Qed.

Lemma estimated_size_nonneg (d : str) : 0 <= estimated_size d.
Proof. unfold estimated_size. lia. Qed.

Lemma init_ok (max_size_mb : Z) : accumulator_ok max_size_mb init.
Proof. repeat split; simpl; [now left | constructor]. Qed.

Lemma add_ok (max_size_mb : Z) (separator : str) (st : accumulator) (d : str) :
  accumulator_ok max_size_mb st ->
  accumulator_ok max_size_mb (add max_size_mb separator st d).
Proof.
  intros (Hsize & Hcur & Hwr). unfold add.
  destruct (Z.gtb_spec (current_size st + estimated_size d)
              (max_size_mb * 1024 * 1024)) as [Hgt|Hle].
  - repeat split; simpl.
    + lia.
    + right.
      destruct (Z.le_gt_cases (estimated_size d) (max_size_mb * 1024 * 1024)).
      * left. simpl. lia.
      * right. exists d. split; [reflexivity|lia].
    + unfold write_shard. apply Forall_app. split; [exact Hwr|].
      constructor; [exact Hcur|constructor].
  - repeat split; simpl.
    + rewrite shard_size_app. lia.
    + right. left. rewrite shard_size_app. lia.
    + exact Hwr.
Qed.

Lemma feed_snoc (max_size_mb : Z) (separator : str) (docs : list str) (d : str) :
  feed max_size_mb separator (docs ++ [d])
  = add max_size_mb separator (feed max_size_mb separator docs) d.
Proof. unfold feed. now rewrite fold_left_app. Qed.

Lemma fold_add_ok (max_size_mb : Z) (separator : str) (docs : list str) :
  forall st, accumulator_ok max_size_mb st ->
  accumulator_ok max_size_mb (fold_left (add max_size_mb separator) docs st).
Proof.
  induction docs as [|d docs IH]; intros st Hst; simpl; [exact Hst|].
  apply IH. now apply add_ok.
Qed.

Lemma finalize_ok (max_size_mb : Z) (separator : str) (st : accumulator) :
  accumulator_ok max_size_mb st ->
  accumulator_ok max_size_mb (finalize separator st).
Proof.
  intros (Hsize & Hcur & Hwr). unfold finalize.
  destruct (current_content st) as [|d l] eqn:E.
  - repeat split; rewrite ?E; assumption.
  - repeat split; simpl; [assumption..|].
    unfold write_shard. apply Forall_app. split; [exact Hwr|].
    constructor; [now rewrite E|constructor].
Qed.

(** Whatever the budget, a written shard that holds a document respects
    it. *)
Lemma shards_ok (max_size_mb : Z) (separator : str) (docs : list str) :
  Forall (fun f => shard_ok max_size_mb (shard_docs f))
    (shards max_size_mb separator docs).
Proof.
  unfold shards, feed.
  apply (finalize_ok max_size_mb separator), (fold_add_ok max_size_mb separator).
  apply init_ok.
Qed.

(** An empty shard is within a budget that is not negative. *)
Lemma shard_ok_within_budget (max_size_mb : Z) (docs : list str) :
  0 <= max_size_mb ->
  shard_ok max_size_mb docs -> shard_within_budget max_size_mb docs.
Proof.
  intros Hmax [->|H]; [|exact H]. left. simpl. lia.
Qed.

(** C1.  With a budget that is not negative, every shard written by the
    add loop and the final flush holds at most
    [max_size_mb * 1024 * 1024] bytes of documents, or is one document
    that is alone larger than that; and the comparison is strict: a
    document that brings the shard in progress to the budget exactly is
    appended, and nothing is written. *)
Theorem shards_within_budget (max_size_mb : Z) (separator : str) (docs : list str) :
  0 <= max_size_mb ->
  Forall (fun f => shard_within_budget max_size_mb (shard_docs f))
    (shards max_size_mb separator docs)
  /\ (forall (st : accumulator) (d : str),
        current_size st + estimated_size d = max_size_mb * 1024 * 1024 ->
        written (add max_size_mb separator st d) = written st
        /\ current_content (add max_size_mb separator st d)
           = current_content st ++ [d]
        /\ current_size (add max_size_mb separator st d)
           = max_size_mb * 1024 * 1024).
Proof.
  intros Hmax. split.
  - eapply Forall_impl; [apply shards_ok|].
    intros f. now apply shard_ok_within_budget.
  - intros st d Heq. unfold add.
    destruct (Z.gtb_spec (current_size st + estimated_size d)
                (max_size_mb * 1024 * 1024)); [lia|].
    simpl. repeat split; auto.
Qed.

Lemma shards_within_budget_witness :
  0 <= 1
  /\ Forall (fun f => shard_within_budget 1 (shard_docs f))
       (shards 1 (py "<|endoftext|>") [py "ab"; []; py "c"]).
Proof.
  split; [lia|].
  apply (shards_within_budget 1 (py "<|endoftext|>") [py "ab"; []; py "c"]).
  lia.
Defined.

(** Nothing is lost or reordered: the written shards followed by the shard
    in progress are the documents added so far, in their order. *)
Lemma fold_add_documents (max_size_mb : Z) (separator : str) (docs : list str) :
  forall st,
  let st' := fold_left (add max_size_mb separator) docs st in
  concat (map shard_docs (written st')) ++ current_content st'
  = (concat (map shard_docs (written st)) ++ current_content st) ++ docs.
Proof.
  induction docs as [|d docs IH]; intros st; simpl.
  - now rewrite app_nil_r.
  - rewrite IH. unfold add.
    destruct (current_size st + estimated_size d >? max_size_mb * 1024 * 1024);
      simpl.
    + unfold write_shard. rewrite map_app, concat_app. simpl.
      rewrite app_nil_r. now rewrite <- !app_assoc.
    + now rewrite <- !app_assoc.
Qed.

Lemma finalize_documents (separator : str) (st : accumulator) :
  concat (map shard_docs (written (finalize separator st)))
  = concat (map shard_docs (written st)) ++ current_content st.
Proof.
  unfold finalize. destruct (current_content st) as [|d l] eqn:E; simpl.
  - now rewrite app_nil_r.
  - unfold write_shard. rewrite map_app, concat_app. simpl.
    now rewrite E, app_nil_r.
Qed.

Lemma shards_documents (max_size_mb : Z) (separator : str) (docs : list str) :
  concat (map shard_docs (shards max_size_mb separator docs)) = docs.
Proof.
  unfold shards, feed. rewrite finalize_documents.
  now rewrite (fold_add_documents max_size_mb separator docs init).
Qed.

(** Every written file holds the join of its documents. *)
Lemma fold_add_text (max_size_mb : Z) (separator : str) (docs : list str) :
  forall st,
  Forall (fun f => shard_text f = join separator (shard_docs f)) (written st) ->
  Forall (fun f => shard_text f = join separator (shard_docs f))
    (written (fold_left (add max_size_mb separator) docs st)).
Proof.
  induction docs as [|d docs IH]; intros st Hst; simpl; [exact Hst|].
  apply IH. unfold add.
  destruct (current_size st + estimated_size d >? max_size_mb * 1024 * 1024);
    simpl; [|exact Hst].
  unfold write_shard. apply Forall_app. split; [exact Hst|].
  constructor; [reflexivity|constructor].
Qed.

(** C7.  The final flush of a shard in progress that is not empty writes
    exactly one more file, numbered [file_counter], whose text is the
    documents of that shard joined by the separator, in the order they
    were added; on an empty shard in progress it writes nothing. *)
Theorem finalize_spec (separator : str) (st : accumulator) :
  (current_content st <> [] ->
     written (finalize separator st)
     = written st ++ [ {| shard_no := file_counter st;
                          shard_docs := current_content st;
                          shard_text := join separator (current_content st) |} ])
  /\ (current_content st = [] -> written (finalize separator st) = written st)
  /\ (forall (max_size_mb : Z) (d : str),
        current_content (add max_size_mb separator st d)
          = current_content st ++ [d]
        \/ current_content (add max_size_mb separator st d) = [d]).
Proof.
  unfold finalize. repeat split.
  - intros Hne. destruct (current_content st) as [|d l] eqn:E; [contradiction|].
    simpl. unfold write_shard. now rewrite E.
  - intros ->. reflexivity.
  - intros max_size_mb d. unfold add.
    destruct (current_size st + estimated_size d >? max_size_mb * 1024 * 1024);
      simpl; auto.
Qed.

Lemma finalize_spec_witness :
  let separator := py "<|endoftext|>" in
  let st := feed 1 separator [py "ab"; py "c"] in
  current_content st <> []
  /\ written (finalize separator st)
     = [ {| shard_no := 1; shard_docs := [py "ab"; py "c"];
            shard_text := py "ab<|endoftext|>c" |} ].
Proof.
  intros separator st.
  assert (Hne : current_content st <> []) by (vm_compute; discriminate).
  split; [exact Hne|].
  rewrite (proj1 (finalize_spec separator st) Hne).
  vm_compute. reflexivity.
Defined.

(** A document larger than the budget makes [add] write the shard in
    progress, whatever it holds. *)
Lemma add_over_budget (max_size_mb : Z) (separator : str)
    (st : accumulator) (d : str) :
  max_size_mb * 1024 * 1024 < current_size st + estimated_size d ->
  add max_size_mb separator st d
  = {| current_content := [d];
       current_size := estimated_size d;
       file_counter := file_counter st + 1;
       written := write_shard separator st |}.
Proof.
  intros H. unfold add.
  destruct (Z.gtb_spec (current_size st + estimated_size d)
              (max_size_mb * 1024 * 1024)); [reflexivity|lia].
Qed.

Lemma oversized_doc_size : estimated_size oversized_doc = 1048577.
Proof. vm_compute. reflexivity. Qed.

(** C2 (the code departs from it).  With [max_size_mb = 1], a first
    document of 1048577 bytes makes [add] write [combined_1.txt] from the
    empty shard in progress: a file with no document and an empty text.
    The document itself then goes to [combined_2.txt]. *)
Theorem first_oversized_document_writes_empty_shard :
  let separator := py "<|endoftext|>" in
  written (add 1 separator init oversized_doc)
  = [ {| shard_no := 1; shard_docs := []; shard_text := [] |} ]
  /\ shards 1 separator [oversized_doc]
     = [ {| shard_no := 1; shard_docs := []; shard_text := [] |};
         {| shard_no := 2; shard_docs := [oversized_doc];
            shard_text := oversized_doc |} ].
Proof.
  intros separator.
  assert (H : add 1 separator init oversized_doc
              = {| current_content := [oversized_doc];
                   current_size := estimated_size oversized_doc;
                   file_counter := 2;
                   written := [ {| shard_no := 1; shard_docs := [];
                                   shard_text := [] |} ] |}).
  { apply (add_over_budget 1 separator init oversized_doc).
    rewrite oversized_doc_size. reflexivity. }
  split.
  - now rewrite H.
  - unfold shards, feed. cbn [fold_left]. rewrite H. reflexivity.
Qed.

(** ** Reading the input files *)

Lemma bind_ok {A B : Type} (a : A) (k : A -> exc B) : (Ok a ≫= k) = k a.
Proof. reflexivity. Qed.


Lemma open_read_some (fs : gmap string (list byte)) (enc : encoding)
    (file_path : string) (bs : list byte) :
  fs !! file_path = Some bs ->
  open_read fs enc file_path
  = match decode enc bs with
    | Some t => Ok (universal_newlines t)
    | None => Raise UnicodeDecodeError
    end.
Proof.
  intros H. unfold open_read, read_text. rewrite H.
  now destruct (decode enc bs).
Qed.

(** Latin-1 decodes every file. *)
Lemma decode_latin1_total (bs : list byte) :
  decode latin1 bs = Some (map Byte.to_N bs).
Proof. reflexivity. Qed.

(** Whether the read of a file raises does not depend on the state of the
    run. *)
Lemma read_file_raise_any_state (fs : gmap string (list byte))
    (fb : encoding) (st st' : pipeline) (file_path : string) (e : exn) :
  read_file fs fb st file_path = Raise e ->
  read_file fs fb st' file_path = Raise e.
Proof.
  unfold read_file.
  destruct (open_read fs utf_8 file_path) as [c|[]]; try discriminate; auto.
  destruct (open_read fs fb file_path) as [c|e']; [discriminate|auto].
Qed.

Lemma combine_step_raise (detect : str -> option string)
    (fs : gmap string (list byte)) (max_size_mb : Z) (separator : str)
    (fb : encoding) (st : pipeline) (file_path : string) (e : exn) :
  read_file fs fb st file_path = Raise e ->
  combine_step detect fs max_size_mb separator fb st file_path = Raise e.
Proof. intros H. unfold combine_step. now rewrite H. Qed.

(** An element on which the body always raises makes the loop raise. *)
Lemma for_each_raises {S A : Type} (body : S -> A -> exc S) (x : A) (xs : list A) :
  (forall s, exists e, body s x = Raise e) ->
  x ∈ xs ->
  forall s, exists e, for_each body xs s = Raise e.
Proof.
  intros Hx. induction xs as [|y xs IH]; intros Hin s.
  - now apply elem_of_nil in Hin.
  - simpl. destruct (body s y) as [s'|e] eqn:E.
    + rewrite bind_ok. apply elem_of_cons in Hin as [->|Hin].
      * destruct (Hx s) as [e He]. congruence.
      * now apply IH.
    + exists e. reflexivity.
Qed.


(** A file that neither encoding decodes ends the whole run. *)
Lemma combine_files_aborts (detect : str -> option string)
    (fs : gmap string (list byte)) (max_size_mb : Z) (separator : str)
    (fb : encoding) (file_path : string) (bs : list byte)
    (file_paths : list string) :
  fs !! file_path = Some bs ->
  decode utf_8 bs = None -> decode fb bs = None ->
  file_path ∈ file_paths ->
  exists e, combine_files detect fs max_size_mb separator fb file_paths
            = Raise e.
Proof.
  intros Hfs H8 Hfb Hin. unfold combine_files.
  destruct (for_each_raises (combine_step detect fs max_size_mb separator fb)
              file_path file_paths) with (s := start) as [e He]; [|exact Hin|].
  - intros st. exists UnicodeDecodeError. apply combine_step_raise.
    unfold read_file.
    rewrite !(open_read_some fs _ file_path bs Hfs), H8, Hfb. reflexivity.
  - exists e. now rewrite He.
Qed.


(** C3 (as amended).  A file is read as UTF-8 first; when that fails to
    decode, the read is tried once more with the fallback encoding, with a
    warning in the log.  A failure of the second read is not caught: the
    exception leaves [combine_files] and the run ends.  With Latin-1, the
    default fallback, the second read always decodes. *)
Theorem combine_read_policy (detect : str -> option string)
    (fs : gmap string (list byte)) (max_size_mb : Z) (separator : str)
    (fb : encoding) (st : pipeline) (file_path : string) (bs : list byte) :
  fs !! file_path = Some bs ->
  (forall t, decode utf_8 bs = Some t ->
     read_file fs fb st file_path = Ok (universal_newlines t, st))
  /\ (forall t, decode utf_8 bs = None -> decode fb bs = Some t ->
        read_file fs fb st file_path
        = Ok (universal_newlines t,
              {| shard_acc := shard_acc st; stats := stats st;
                 log := log st ++ [Warning_fallback_encoding file_path] |}))
  /\ (decode utf_8 bs = None -> decode fb bs = None ->
        read_file fs fb st file_path = Raise UnicodeDecodeError
        /\ forall file_paths, file_path ∈ file_paths ->
           exists e, combine_files detect fs max_size_mb separator fb file_paths
                     = Raise e)
  /\ (fb = latin1 ->
        exists content st', read_file fs fb st file_path = Ok (content, st')).
Proof.
  intros Hfs. unfold read_file.
  rewrite !(open_read_some fs _ file_path bs Hfs).
  split; [|split; [|split]].
  - intros t ->. reflexivity.
  - intros t -> ->. reflexivity.
  - intros H8 Hfb. split; [now rewrite H8, Hfb|].
    intros file_paths Hin.
    now apply (combine_files_aborts detect fs max_size_mb separator fb
                 file_path bs).
  - intros ->. rewrite decode_latin1_total.
    destruct (decode utf_8 bs); rewrite ?bind_ok; eauto.
Qed.

Lemma combine_read_policy_witness :
  sample_fs !! "bad.txt"%string = Some [Byte.xff]
  /\ read_file sample_fs us_ascii start "bad.txt" = Raise UnicodeDecodeError
  /\ read_file sample_fs latin1 start "bad.txt"
     = Ok ([255%N],
           {| shard_acc := init; stats := {| en := 0; other := 0 |};
              log := [Warning_fallback_encoding "bad.txt"] |}).
Proof.
  assert (H : sample_fs !! "bad.txt"%string = Some [Byte.xff])
    by (vm_compute; reflexivity).
  split; [exact H|]. split.
  - apply (combine_read_policy sample_detect sample_fs 500
             (py "<|endoftext|>") us_ascii start "bad.txt" [Byte.xff] H);
      vm_compute; reflexivity.
  - apply (proj1 (proj2 (combine_read_policy sample_detect sample_fs 500
             (py "<|endoftext|>") latin1 start "bad.txt" [Byte.xff] H))
             [255%N]); vm_compute; reflexivity.
Defined.

(** C3 as stated fails: a file that neither UTF-8 nor the fallback
    decodes is not skipped, the run ends with the exception and the files
    after it are not processed; so does a file that cannot be opened, with
    the default fallback. *)
Lemma undecodable_file_aborts_the_run :
  combine_files sample_detect sample_fs 500 (py "<|endoftext|>") us_ascii
    ["bad.txt"; "en.txt"]%string = Raise UnicodeDecodeError
  /\ combine_files sample_detect sample_fs 500 (py "<|endoftext|>") latin1
       ["missing.txt"; "en.txt"]%string = Raise FileNotFoundError.
Proof. split; vm_compute; reflexivity. Qed.

(** ** The combination as a whole *)

(** Reading a file changes the log at most. *)
Lemma read_file_keeps_state (fs : gmap string (list byte)) (fb : encoding)
    (st st1 : pipeline) (file_path : string) (content : str) :
  read_file fs fb st file_path = Ok (content, st1) ->
  shard_acc st1 = shard_acc st /\ stats st1 = stats st.
Proof.
  unfold read_file.
  destruct (open_read fs utf_8 file_path) as [c|[]]; try discriminate.
  - now intros [= <- <-].
  - destruct (open_read fs fb file_path); [|discriminate].
    now intros [= <- <-].
Qed.

(** A document that the language check rejects only moves the [other]
    count and the log. *)
Lemma combine_step_rejected (detect : str -> option string)
    (fs : gmap string (list byte)) (max_size_mb : Z) (separator : str)
    (fb : encoding) (st st1 : pipeline) (file_path : string) (content : str) :
  read_file fs fb st file_path = Ok (content, st1) ->
  is_english_using_langdetect detect content = false ->
  combine_step detect fs max_size_mb separator fb st file_path
  = Ok {| shard_acc := shard_acc st;
          stats := {| en := en (stats st); other := other (stats st) + 1 |};
          log := log st1 ++ [Skipping_not_english file_path] |}.
Proof.
  intros R Hrej. destruct (read_file_keeps_state _ _ _ _ _ _ R) as [Hacc Hstats].
  unfold combine_step. rewrite R, bind_ok. cbn beta iota.
  unfold filter_document. rewrite Hrej. cbn [negb].
  now rewrite Hacc, Hstats.
Qed.

(** The loop feeds the accumulator some documents, in order, and does
    nothing else to it. *)
Lemma for_each_combine_feeds (detect : str -> option string)
    (fs : gmap string (list byte)) (max_size_mb : Z) (separator : str)
    (fb : encoding) (file_paths : list string) :
  forall st st',
  for_each (combine_step detect fs max_size_mb separator fb) file_paths st
    = Ok st' ->
  exists docs,
    shard_acc st' = fold_left (add max_size_mb separator) docs (shard_acc st).
Proof.
  induction file_paths as [|p ps IH]; intros st st'; simpl.
  - intros [= <-]. now exists [].
  - destruct (combine_step detect fs max_size_mb separator fb st p)
      as [st1|e] eqn:E; [rewrite bind_ok|discriminate].
    intros H. destruct (IH _ _ H) as [docs Hdocs].
    unfold combine_step in E.
    destruct (read_file fs fb st p) as [[c st0]|e] eqn:R; [|discriminate].
    destruct (read_file_keeps_state _ _ _ _ _ _ R) as [Hacc _].
    rewrite bind_ok in E. simpl in E.
    destruct (filter_document detect c) as [| |d]; injection E as <-;
      simpl in Hdocs; rewrite Hacc in Hdocs.
    + now exists docs.
    + now exists docs.
    + now exists (d :: docs).
Qed.

(** The files of a run that returns are the shards of the documents it
    accepted. *)
Lemma combine_files_shards (detect : str -> option string)
    (fs : gmap string (list byte)) (max_size_mb : Z) (separator : str)
    (fb : encoding) (file_paths : list string) (n : Z) (st : pipeline) :
  combine_files detect fs max_size_mb separator fb file_paths = Ok (n, st) ->
  exists docs,
    written (shard_acc st) = shards max_size_mb separator docs
    /\ n = file_counter (feed max_size_mb separator docs).
Proof.
  unfold combine_files.
  destruct (for_each _ file_paths start) as [st1|e] eqn:E; [|discriminate].
  rewrite bind_ok. intros [= <- <-].
  destruct (for_each_combine_feeds _ _ _ _ _ _ _ _ E) as [docs Hdocs].
  exists docs. simpl. unfold shards, feed. simpl in Hdocs. rewrite <- Hdocs.
  split; [reflexivity|].
  unfold finalize. now destruct (current_content (shard_acc st1)).
Qed.

Lemma combine_files_within_budget (detect : str -> option string)
    (fs : gmap string (list byte)) (max_size_mb : Z) (separator : str)
    (fb : encoding) (file_paths : list string) (n : Z) (st : pipeline) :
  0 <= max_size_mb ->
  combine_files detect fs max_size_mb separator fb file_paths = Ok (n, st) ->
  Forall (fun f => shard_within_budget max_size_mb (shard_docs f))
    (written (shard_acc st)).
Proof.
  intros Hmax H. destruct (combine_files_shards _ _ _ _ _ _ _ _ H)
    as (docs & -> & _).
  eapply Forall_impl; [apply shards_ok|].
  intros f. now apply shard_ok_within_budget.
Qed.

(** [file_counter] is the number of the next file to write. *)
Lemma fold_add_counter (max_size_mb : Z) (separator : str) (docs : list str) :
  forall st,
  file_counter st = 1 + Z.of_nat (length (written st)) ->
  let st' := fold_left (add max_size_mb separator) docs st in
  file_counter st' = 1 + Z.of_nat (length (written st')).
Proof.
  induction docs as [|d docs IH]; intros st Hst; simpl; [exact Hst|].
  apply IH. unfold add.
  destruct (current_size st + estimated_size d >? max_size_mb * 1024 * 1024);
    simpl; [|exact Hst].
  unfold write_shard. rewrite length_app. simpl. lia.
Qed.

Lemma fold_add_current (max_size_mb : Z) (separator : str) (docs : list str) :
  forall st, docs <> [] ->
  current_content (fold_left (add max_size_mb separator) docs st) <> [].
Proof.
  induction docs as [|d docs IH]; intros st Hne; [contradiction|].
  simpl. destruct docs as [|d' docs].
  - simpl. unfold add.
    destruct (current_size st + estimated_size d >? max_size_mb * 1024 * 1024);
      simpl; [discriminate|]. now destruct (current_content st).
  - apply IH. discriminate.
Qed.

(** The returned count is the number of written files when a document was
    accepted, and one more than it (that is, 1 for no file) when none
    was. *)
Lemma returned_count (max_size_mb : Z) (separator : str) (docs : list str) :
  file_counter (feed max_size_mb separator docs)
  = Z.of_nat (length (shards max_size_mb separator docs))
    + match docs with [] => 1 | _ :: _ => 0 end.
Proof.
  unfold shards.
  pose proof (fold_add_counter max_size_mb separator docs init eq_refl) as Hc.
  fold (feed max_size_mb separator docs) in Hc. simpl in Hc.
  destruct docs as [|d docs].
  - reflexivity.
  - pose proof (fold_add_current max_size_mb separator (d :: docs) init) as Hne.
    fold (feed max_size_mb separator (d :: docs)) in Hne.
    unfold finalize.
    destruct (current_content (feed max_size_mb separator (d :: docs)))
      as [|x l]; [now destruct Hne|].
    simpl. unfold write_shard. rewrite length_app. simpl. lia.
Qed.

(** C4 (the code departs from it).  With no input file the run returns
    without an exception and writes no file, yet the number it reports as
    saved is 1. *)
Theorem no_input_files_reports_one_file (detect : str -> option string)
    (fs : gmap string (list byte)) (max_size_mb : Z) :
  main detect fs [] max_size_mb = Ok (1, []).
Proof. reflexivity. Qed.

(** ** The language check of the combination *)

(** C6.  The language check reads the decoded text as it is, before any
    cleaning.  A document it rejects is counted in [other], logged and
    skipped: the accumulator and the [en] count are unchanged, whatever
    the stripping, the normalisation and the length check would have
    made of the text.  A document it accepts is counted in [en], and only
    then stripped, normalised and checked for length. *)
Theorem language_check_comes_first (detect : str -> option string)
    (fs : gmap string (list byte)) (max_size_mb : Z) (separator : str)
    (fb : encoding) (st st1 : pipeline) (file_path : string) (content : str) :
  read_file fs fb st file_path = Ok (content, st1) ->
  (is_english_using_langdetect detect content = false ->
     filter_document detect content = Rejected_language
     /\ combine_step detect fs max_size_mb separator fb st file_path
        = Ok {| shard_acc := shard_acc st;
                stats := {| en := en (stats st);
                            other := other (stats st) + 1 |};
                log := log st1 ++ [Skipping_not_english file_path] |})
  /\ (is_english_using_langdetect detect content = true ->
        let cleaned :=
          normalize_blank_lines (remove_gutenberg_boilerplate content) in
        filter_document detect content
        = (if (length (strip cleaned) <? 100)%nat then Rejected_short
           else Accepted cleaned)
        /\ exists st',
             combine_step detect fs max_size_mb separator fb st file_path
               = Ok st'
             /\ en (stats st') = en (stats st) + 1
             /\ other (stats st') = other (stats st)).
Proof.
  intros R. split.
  - intros Hrej. split.
    + unfold filter_document. now rewrite Hrej.
    + now apply (combine_step_rejected detect fs max_size_mb separator fb
                   st st1 file_path content).
  - intros Hacc. cbv zeta.
    destruct (read_file_keeps_state _ _ _ _ _ _ R) as [_ Hstats].
    unfold combine_step. rewrite R, bind_ok. cbn beta iota.
    unfold filter_document. rewrite Hacc. cbn [negb]. cbv zeta.
    split; [reflexivity|].
    destruct (length _ <? 100)%nat; eexists; (split; [reflexivity|]);
      simpl; now rewrite Hstats.
Qed.

Lemma language_check_comes_first_witness :
  read_file sample_fs latin1 start "fr.txt"
    = Ok (py "L'" ++ [233%N] ++ py "tranger", start)
  /\ combine_step sample_detect sample_fs 500 (py "<|endoftext|>") latin1
       start "fr.txt"
     = Ok {| shard_acc := init; stats := {| en := 0; other := 1 |};
             log := [Skipping_not_english "fr.txt"] |}.
Proof.
  assert (R : read_file sample_fs latin1 start "fr.txt"
              = Ok (py "L'" ++ [233%N] ++ py "tranger", start))
    by (vm_compute; reflexivity).
  split; [exact R|].
  apply (proj1 (language_check_comes_first sample_detect sample_fs 500
                  (py "<|endoftext|>") latin1 start start "fr.txt" _ R)).
  vm_compute. reflexivity.
Defined.

(** ** Empty samples *)

Lemma classify_sample_empty (detect : str -> option string)
    (on_detect_error : scan_error) (raw : str) :
  strip raw = [] ->
  classify_sample detect on_detect_error raw
  = {| is_english := false; language := "unknown";
       error := Some Empty_file |}.
Proof. intros H. unfold classify_sample. now rewrite H. Qed.

Lemma check_english_files_last (detect : str -> option string)
    (read_1000 : encoding -> string -> exc str)
    (earlier : list string) (file_path : string) :
  check_english_files detect read_1000 (earlier ++ [file_path])
    !! basename file_path
  = Some (check_file detect read_1000 file_path).
Proof.
  unfold check_english_files. rewrite fold_left_app. simpl.
  apply lookup_insert_eq.
Qed.

(** C9 (as amended).  In the pre-scan a file whose sample is empty once
    trimmed is recorded as not English with the error [Empty file],
    whichever of the two encodings decoded it, and that is the entry under
    its name once the file has been scanned.  The check of the
    combination has no such reason: it does not trim the sample, it
    rejects a document when the classifier fails on its first 1000
    characters or answers another code than [en], and every document it
    rejects is logged as not English and counted in [other]. *)
Theorem empty_sample_policy (detect : str -> option string)
    (read_1000 : encoding -> string -> exc str)
    (earlier : list string) (file_path : string) (raw : str) :
  (read_1000 utf_8 file_path = Ok raw
   \/ (read_1000 utf_8 file_path = Raise UnicodeDecodeError
       /\ read_1000 latin1 file_path = Ok raw)) ->
  strip raw = [] ->
  let entry := {| is_english := false; language := "unknown";
                  error := Some Empty_file |} in
  check_file detect read_1000 file_path = entry
  /\ scan_reason entry = Some empty
  /\ check_english_files detect read_1000 (earlier ++ [file_path])
       !! basename file_path = Some entry
  /\ (forall content : str,
        is_english_using_langdetect detect content
        = match detect (firstn 1000 content) with
          | Some lang => String.eqb lang "en"
          | None => false
          end)
  /\ (forall (fs : gmap string (list byte)) (max_size_mb : Z)
             (separator : str) (fb : encoding) (st st1 : pipeline)
             (path : string) (content : str),
        read_file fs fb st path = Ok (content, st1) ->
        is_english_using_langdetect detect content = false ->
        exists st',
          combine_step detect fs max_size_mb separator fb st path = Ok st'
          /\ log st' = log st1 ++ [Skipping_not_english path]
          /\ skip_reason (Skipping_not_english path) = Some non_english
          /\ other (stats st') = other (stats st) + 1).
Proof.
  intros Hread Hempty entry.
  assert (Hentry : check_file detect read_1000 file_path = entry).
  { unfold check_file. destruct Hread as [->|[-> ->]];
      now apply classify_sample_empty. }
  split; [exact Hentry|]. split; [reflexivity|]. split.
  - rewrite check_english_files_last. now rewrite Hentry.
  - split; [reflexivity|].
    intros fs max_size_mb separator fb st st1 path content R Hrej.
    rewrite (combine_step_rejected detect fs max_size_mb separator fb
               st st1 path content R Hrej).
    eexists. split; [reflexivity|]. simpl. auto.
Qed.

Lemma empty_sample_policy_witness :
  sample_reader sample_fs utf_8 "blank.txt" = Ok (py "     ")
  /\ strip (py "     ") = []
  /\ check_file sample_detect (sample_reader sample_fs) "blank.txt"
     = {| is_english := false; language := "unknown";
          error := Some Empty_file |}.
Proof.
  assert (H1 : sample_reader sample_fs utf_8 "blank.txt" = Ok (py "     "))
    by (vm_compute; reflexivity).
  assert (H2 : strip (py "     ") = []) by (vm_compute; reflexivity).
  split; [exact H1|]. split; [exact H2|].
  exact (proj1 (empty_sample_policy sample_detect (sample_reader sample_fs)
                  [] "blank.txt" (py "     ") (or_introl H1) H2)).
Defined.

(** C9 as stated fails for the check of the combination: a file of blanks
    has an empty sample, the pre-scan records it as [Empty file], but the
    combination logs it as not English and counts it in [other], exactly
    as it does a French text. *)
Lemma blank_document_is_counted_as_not_english :
  let separator := py "<|endoftext|>" in
  (exists content st1,
     read_file sample_fs latin1 start "blank.txt" = Ok (content, st1)
     /\ strip (firstn 1000 content) = [])
  /\ combine_step sample_detect sample_fs 500 separator latin1 start "blank.txt"
     = Ok {| shard_acc := init; stats := {| en := 0; other := 1 |};
             log := [Skipping_not_english "blank.txt"] |}
  /\ skip_reason (Skipping_not_english "blank.txt") = Some non_english
  /\ skip_reason (Skipping_not_english "blank.txt") <> Some empty
  /\ combine_step sample_detect sample_fs 500 separator latin1 start "fr.txt"
     = Ok {| shard_acc := init; stats := {| en := 0; other := 1 |};
             log := [Skipping_not_english "fr.txt"] |}.
Proof.
  intros separator. split; [|split; [|split; [|split]]].
  - exists (py "     "), start. split; vm_compute; reflexivity.
  - vm_compute. reflexivity.
  - reflexivity.
  - discriminate.
  - vm_compute. reflexivity.
Qed.

(** ** The clean-up diagnostic *)

(** C10.  On a file whose decoded content is not empty the diagnostic
    returns the content and its cleaned form; the share of removed
    characters is a quotient by the length of the content.  On a file
    whose decoded content is empty it raises [ZeroDivisionError]. *)
Theorem clean_and_verify_gutenberg_division (fs : gmap string (list byte))
    (file_path : string) (fb : encoding) (original : str) :
  (open_read fs utf_8 file_path = Ok original
   \/ (open_read fs utf_8 file_path = Raise UnicodeDecodeError
       /\ open_read fs fb file_path = Ok original)) ->
  (original <> [] ->
     exists report,
       clean_and_verify_gutenberg fs file_path fb
         = Ok (original, remove_gutenberg_boilerplate original, report)
       /\ removed_chars report
          = Z.of_nat (length original)
            - Z.of_nat (length (remove_gutenberg_boilerplate original))
       /\ removed_percent report
          = ((inject_Z (removed_chars report)
              / inject_Z (Z.of_nat (length original))) * inject_Z 100)%Q)
  /\ (original = [] ->
        clean_and_verify_gutenberg fs file_path fb = Raise ZeroDivisionError).
Proof.
  intros Hread.
  assert (H : clean_and_verify_gutenberg fs file_path fb
    = (share ← percent_of
         (Z.of_nat (length original)
          - Z.of_nat (length (remove_gutenberg_boilerplate original)))
         (Z.of_nat (length original));
       Ok (original, remove_gutenberg_boilerplate original,
           {| original_chars := Z.of_nat (length original);
              original_line_count := Z.of_nat (length (split_lines original));
              cleaned_chars :=
                Z.of_nat (length (remove_gutenberg_boilerplate original));
              cleaned_line_count :=
                Z.of_nat (length (split_lines
                                    (remove_gutenberg_boilerplate original)));
              removed_chars :=
                Z.of_nat (length original)
                - Z.of_nat (length (remove_gutenberg_boilerplate original));
              removed_percent := share |}))).
  { unfold clean_and_verify_gutenberg.
    destruct Hread as [->|[-> ->]]; now rewrite bind_ok. }
  rewrite H. unfold percent_of. split.
  - intros Hne.
    destruct (Z.eqb_spec (Z.of_nat (length original)) 0) as [E|E].
    + destruct original; [contradiction|discriminate].
    + rewrite bind_ok. eexists. split; [reflexivity|]. split; reflexivity.
  - intros ->. reflexivity.
Qed.

Lemma clean_and_verify_gutenberg_division_witness :
  open_read sample_fs utf_8 "en.txt" = Ok english_text
  /\ english_text <> []
  /\ exists report,
       clean_and_verify_gutenberg sample_fs "en.txt" latin1
       = Ok (english_text, remove_gutenberg_boilerplate english_text, report).
Proof.
  assert (H1 : open_read sample_fs utf_8 "en.txt" = Ok english_text)
    by (vm_compute; reflexivity).
  assert (H2 : english_text <> []) by (vm_compute; discriminate).
  split; [exact H1|]. split; [exact H2|].
  destruct (proj1 (clean_and_verify_gutenberg_division sample_fs "en.txt"
                     latin1 english_text (or_introl H1)) H2)
    as (report & Hr & _).
  exists report. exact Hr.
Defined.

Example clean_and_verify_gutenberg_empty_file :
  clean_and_verify_gutenberg empty_fs "empty.txt" latin1
  = Raise ZeroDivisionError.
Proof. vm_compute. reflexivity. Qed.

(** * Further properties *)

(** ** The boilerplate stripper *)

Lemma join_skipn_suffix (ls : list str) :
  forall n, exists prefix, join [nl] ls = prefix ++ join [nl] (skipn n ls).
Proof.
  induction ls as [|x rest IH]; intros n.
  - exists []. now destruct n.
  - destruct n as [|n]; [now exists []|].
    cbn [skipn]. destruct (IH n) as [pre Hpre].
    destruct rest as [|y rest].
    + exists x. destruct n; simpl; now rewrite app_nil_r.
    + exists (x ++ [nl] ++ pre).
      change (join [nl] (x :: y :: rest)) with (x ++ [nl] ++ join [nl] (y :: rest)).
      rewrite Hpre. now rewrite <- !app_assoc.
Qed.

Lemma remove_gutenberg_boilerplate_cut (text : str) :
  exists prefix, text = prefix ++ remove_gutenberg_boilerplate text.
Proof.
  unfold remove_gutenberg_boilerplate.
  destruct (length (split_lines text) <=? 15)%nat; [now exists []|].
  destruct (join_skipn_suffix (split_lines text) 40) as [pre Hpre].
  exists pre. now rewrite <- Hpre, join_split_lines.
Qed.

Lemma remove_gutenberg_boilerplate_length (text : str) :
  (length (remove_gutenberg_boilerplate text) <= length text)%nat.
Proof.
  destruct (remove_gutenberg_boilerplate_cut text) as [pre Hpre].
  rewrite Hpre at 2. rewrite length_app. lia.
Qed.

(** X1.  The stripper only cuts at the front: its result is a suffix of
    the text it was given, so it is never longer than that text. *)
Theorem remove_gutenberg_boilerplate_suffix (text : str) :
  (exists prefix, text = prefix ++ remove_gutenberg_boilerplate text)
  /\ (length (remove_gutenberg_boilerplate text) <= length text)%nat.
Proof.
  split; [apply remove_gutenberg_boilerplate_cut
         |apply remove_gutenberg_boilerplate_length].
Qed.

(** X2.  A text of 16 to 40 lines loses everything: the stripper returns
    the empty text. *)
Theorem remove_gutenberg_boilerplate_empties (text : str) :
  (15 < length (split_lines text) <= 40)%nat ->
  remove_gutenberg_boilerplate text = [].
Proof.
  intros [Hlo Hhi]. rewrite remove_gutenberg_boilerplate_long by exact Hlo.
  now rewrite skipn_all2 by exact Hhi.
Qed.

Lemma remove_gutenberg_boilerplate_empties_witness :
  (15 < length (split_lines twenty_lines) <= 40)%nat
  /\ remove_gutenberg_boilerplate twenty_lines = [].
Proof.
  assert (H : (15 < length (split_lines twenty_lines) <= 40)%nat)
    by (vm_compute; lia).
  split; [exact H|]. exact (remove_gutenberg_boilerplate_empties twenty_lines H).
Defined.

(** No line of a split text holds a newline. *)
Lemma split_lines_no_newline (s : str) :
  Forall (fun l => nl ∉ l) (split_lines s).
Proof.
  induction s as [|c s IH]; simpl.
  - constructor; [apply not_elem_of_nil|constructor].
  - destruct (N.eqb_spec c nl) as [->|Hc].
    + constructor; [apply not_elem_of_nil|exact IH].
    + destruct (split_lines s) as [|l ls]; [repeat constructor|].
      * intros H. apply elem_of_cons in H as [H|H]; [congruence|].
        now apply elem_of_nil in H.
      * inversion IH as [|? ? Hl Hls]; subst. constructor; [|exact Hls].
        intros H. apply elem_of_cons in H as [H|H]; [congruence|contradiction].
Qed.

Lemma split_lines_app_line (l s : str) :
  nl ∉ l -> split_lines (l ++ nl :: s) = l :: split_lines s.
Proof.
  induction l as [|c l IH]; intros Hl; simpl.
  - reflexivity.
  - destruct (N.eqb_spec c nl) as [->|Hc].
    + exfalso. apply Hl. apply list_elem_of_here.
    + rewrite IH; [reflexivity|].
      intros H. apply Hl. now apply list_elem_of_further.
Qed.

Lemma split_lines_line (l : str) : nl ∉ l -> split_lines l = [l].
Proof.
  induction l as [|c l IH]; intros Hl; simpl; [reflexivity|].
  destruct (N.eqb_spec c nl) as [->|Hc].
  - exfalso. apply Hl. apply list_elem_of_here.
  - rewrite IH; [reflexivity|].
    intros H. apply Hl. now apply list_elem_of_further.
Qed.

(** Splitting the join of lines without newlines gives the lines back. *)
Lemma split_lines_join (ls : list str) :
  ls <> [] -> Forall (fun l => nl ∉ l) ls ->
  split_lines (join [nl] ls) = ls.
Proof.
  induction ls as [|x rest IH]; intros Hne Hall; [contradiction|].
  inversion Hall as [|? ? Hx Hrest]; subst.
  destruct rest as [|y rest].
  - simpl. now apply split_lines_line.
  - change (join [nl] (x :: y :: rest)) with (x ++ nl :: join [nl] (y :: rest)).
    rewrite split_lines_app_line by exact Hx.
    now rewrite IH.
Qed.

(** X3.  On a text of more than 40 lines the lines of the result are the
    lines of the text from index 40 on: the first 40 lines are gone and
    every later line is kept as it was. *)
Theorem remove_gutenberg_boilerplate_lines (text : str) :
  (40 < length (split_lines text))%nat ->
  split_lines (remove_gutenberg_boilerplate text) = skipn 40 (split_lines text)
  /\ length (split_lines (remove_gutenberg_boilerplate text))
     = (length (split_lines text) - 40)%nat.
Proof.
  intros H. rewrite remove_gutenberg_boilerplate_long by lia.
  assert (Hs : split_lines (join [nl] (skipn 40 (split_lines text)))
               = skipn 40 (split_lines text)).
  { apply split_lines_join.
    - intros E. apply (f_equal length) in E.
      rewrite List.length_skipn in E. simpl in E. lia.
    - apply Forall_drop, split_lines_no_newline. }
  rewrite Hs. split; [reflexivity|apply List.length_skipn].
Qed.

Lemma remove_gutenberg_boilerplate_lines_witness :
  (40 < length (split_lines fifty_lines))%nat
  /\ split_lines (remove_gutenberg_boilerplate fifty_lines)
     = repeat (py "line") 10.
Proof.
  assert (H : (40 < length (split_lines fifty_lines))%nat)
    by (vm_compute; lia).
  split; [exact H|].
  rewrite (proj1 (remove_gutenberg_boilerplate_lines fifty_lines H)).
  vm_compute. reflexivity.
Defined.

(** ** Blank-line normalisation, continued *)

(** What the tail of the pattern matches is whitespace. *)
Lemma match_ws_nl_split (s rest : str) :
  match_ws_nl s = Some rest ->
  exists ws, s = ws ++ rest /\ forallb is_space ws = true.
Proof.
  revert rest; induction s as [|c s IH]; intros rest; simpl; [discriminate|].
  destruct (is_space c) eqn:Hsp; [|discriminate].
  destruct (match_ws_nl s) as [r|].
  - intros [= <-]. destruct (IH r eq_refl) as (ws & -> & Hws).
    exists (c :: ws). split; [reflexivity|]. simpl. now rewrite Hsp.
  - destruct (c =? nl)%N; [|discriminate]. intros [= <-].
    exists [c]. split; [reflexivity|]. simpl. now rewrite Hsp.
Qed.

Lemma collapse_length_upto (n : nat) :
  forall s : str, (length s < n)%nat -> (length (collapse s) <= length s)%nat.
Proof.
  induction n as [|n IH]; intros s Hlen; [lia|].
  destruct s as [|c s]; [now simp collapse|].
  simpl in Hlen. rewrite collapse_cons.
  destruct (c =? nl)%N.
  - destruct (match_ws_nl s) as [rest|] eqn:E.
    + apply match_ws_nl_shorter in E.
      specialize (IH rest ltac:(lia)). simpl. lia.
    + specialize (IH s ltac:(lia)). simpl. lia.
  - specialize (IH s ltac:(lia)). simpl. lia.
Qed.

Lemma collapse_nonspace_upto (n : nat) :
  forall s : str, (length s < n)%nat ->
  List.filter (fun c => negb (is_space c)) (collapse s)
  = List.filter (fun c => negb (is_space c)) s.
Proof.
  induction n as [|n IH]; intros s Hlen; [lia|].
  destruct s as [|c s]; [reflexivity|].
  simpl in Hlen. rewrite collapse_cons.
  destruct (c =? nl)%N eqn:Hc.
  - apply N.eqb_eq in Hc. subst c.
    destruct (match_ws_nl s) as [rest|] eqn:E.
    + destruct (match_ws_nl_split s rest E) as (ws & -> & Hws).
      cbn [List.filter]. rewrite is_space_nl. cbn [negb].
      rewrite List.filter_app.
      assert (Hnone : List.filter (fun c => negb (is_space c)) ws = []).
      { clear -Hws. induction ws as [|w ws IH]; [reflexivity|].
        simpl in *. apply andb_prop in Hws as [-> Hws]. simpl. now apply IH. }
      rewrite Hnone. cbn [app]. apply IH.
      rewrite length_app in Hlen. lia.
    + cbn [List.filter]. rewrite is_space_nl. cbn [negb]. apply IH. lia.
  - cbn [List.filter]. destruct (negb (is_space c)).
    + f_equal. apply IH. lia.
    + apply IH. lia.
Qed.

(** X4.  Normalisation only rewrites whitespace: the characters that are
    not whitespace are the same, in the same order, before and after; and
    the text never gets longer. *)
Theorem normalize_blank_lines_keeps_text (s : str) :
  List.filter (fun c => negb (is_space c)) (normalize_blank_lines s)
  = List.filter (fun c => negb (is_space c)) s
  /\ (length (normalize_blank_lines s) <= length s)%nat.
Proof.
  rewrite normalize_blank_lines_collapse. split.
  - apply (collapse_nonspace_upto (S (length s))). lia.
  - apply (collapse_length_upto (S (length s))). lia.
Qed.




(** ** The shard accumulator, continued *)

Lemma fold_add_numbering (max_size_mb : Z) (separator : str) (docs : list str) :
  forall st,
  (file_counter st = 1 + Z.of_nat (length (written st))
   /\ forall (i : nat) f, written st !! i = Some f -> shard_no f = Z.of_nat i + 1) ->
  let st' := fold_left (add max_size_mb separator) docs st in
  file_counter st' = 1 + Z.of_nat (length (written st'))
  /\ forall (i : nat) f, written st' !! i = Some f -> shard_no f = Z.of_nat i + 1.
Proof.
  induction docs as [|d docs IH]; intros st Hst; simpl; [exact Hst|].
  apply IH. destruct Hst as [Hc Hn]. unfold add.
  destruct (current_size st + estimated_size d >? max_size_mb * 1024 * 1024);
    simpl; [|now split].
  unfold write_shard. split; [rewrite length_app; simpl; lia|].
  intros i f Hi. apply lookup_app_Some in Hi as [Hi|[Hge Hi]]; [now apply Hn|].
  destruct (i - length (written st))%nat as [|k] eqn:E; [|now destruct k].
  injection Hi as <-. simpl. lia.
Qed.

(** X6.  The written files are numbered from 1 without a gap: the file at
    position [i] of the run (from 0) is [combined_<i+1>.txt]. *)
Theorem shards_numbered_from_one (max_size_mb : Z) (separator : str)
    (docs : list str) (i : nat) (f : shard_file) :
  shards max_size_mb separator docs !! i = Some f ->
  shard_no f = Z.of_nat i + 1.
Proof.
  unfold shards.
  destruct (fold_add_numbering max_size_mb separator docs init) as [Hc Hn].
  { split; [reflexivity|]. intros j g Hj. simpl in Hj. now rewrite lookup_nil in Hj. }
  fold (feed max_size_mb separator docs) in Hc, Hn.
  unfold finalize.
  destruct (current_content (feed max_size_mb separator docs)) eqn:E;
    [apply Hn|].
  simpl. unfold write_shard. intros Hi.
  apply lookup_app_Some in Hi as [Hi|[Hge Hi]]; [now apply Hn|].
  destruct (i - length (written (feed max_size_mb separator docs)))%nat
    as [|k] eqn:Ek; [|now destruct k].
  injection Hi as <-. simpl. lia.
Qed.

Lemma shards_numbered_from_one_witness :
  let fs := shards 0 (py "|") [py "a"; py "b"] in
  fs !! 2%nat = Some {| shard_no := 3; shard_docs := [py "b"];
                        shard_text := py "b" |}
  /\ shard_no {| shard_no := 3; shard_docs := [py "b"];
                 shard_text := py "b" |} = Z.of_nat 2 + 1.
Proof.
  intros fs.
  assert (H : fs !! 2%nat = Some {| shard_no := 3; shard_docs := [py "b"];
                                    shard_text := py "b" |})
    by (vm_compute; reflexivity).
  split; [exact H|].
  exact (shards_numbered_from_one 0 (py "|") [py "a"; py "b"] 2 _ H).
Defined.

Lemma shards_text (max_size_mb : Z) (separator : str) (docs : list str) :
  Forall (fun f => shard_text f = join separator (shard_docs f))
    (shards max_size_mb separator docs).
Proof.
  unfold shards, feed.
  pose proof (fold_add_text max_size_mb separator docs init
                (List.Forall_nil _)) as H.
  unfold finalize.
  destruct (current_content (fold_left (add max_size_mb separator) docs init));
    [exact H|].
  simpl. unfold write_shard. apply Forall_app. split; [exact H|].
  constructor; [reflexivity|constructor].
Qed.

(** X7.  The written files hold the documents that were added, each one
    once and in the order of arrival, and the text of each file is the
    join of its documents by the separator. *)
Theorem shards_keep_documents (max_size_mb : Z) (separator : str)
    (docs : list str) :
  concat (map shard_docs (shards max_size_mb separator docs)) = docs
  /\ Forall (fun f => shard_text f = join separator (shard_docs f))
       (shards max_size_mb separator docs).
Proof. split; [apply shards_documents|apply shards_text]. Qed.

(** Two neighbours in a list that was extended by one element at the
    end. *)
Lemma neighbours_snoc {A : Type} (l l1 l2 : list A) (x a b : A) :
  l ++ [x] = l1 ++ a :: b :: l2 ->
  (l2 = [] /\ b = x /\ l = l1 ++ [a])
  \/ (exists l2', l2 = l2' ++ [x] /\ l = l1 ++ a :: b :: l2').
Proof.
  destruct l2 as [|y l2 _] using rev_ind.
  - intros H. left.
    change (l1 ++ [a; b]) with (l1 ++ [a] ++ [b]) in H.
    rewrite app_assoc in H. apply app_inj_tail in H as [-> ->]. auto.
  - intros H. right. exists l2.
    change (l1 ++ a :: b :: l2 ++ [y]) with (l1 ++ (a :: b :: l2) ++ [y]) in H.
    rewrite app_assoc in H. apply app_inj_tail in H as [-> ->]. auto.
Qed.

(** The shard in progress follows the written ones; between neighbours,
    the first document of the later did not fit in the earlier. *)
Lemma fold_add_greedy (max_size_mb : Z) (separator : str) (docs : list str) :
  forall st,
  (current_size st = shard_size (current_content st)
   /\ (written st <> [] -> current_content st <> [])
   /\ forall l1 a b l2,
        map shard_docs (written st) ++ [current_content st]
          = l1 ++ a :: b :: l2 ->
        exists d rest, b = d :: rest
          /\ max_size_mb * 1024 * 1024 < shard_size a + estimated_size d) ->
  let st' := fold_left (add max_size_mb separator) docs st in
  current_size st' = shard_size (current_content st')
  /\ (written st' <> [] -> current_content st' <> [])
  /\ forall l1 a b l2,
       map shard_docs (written st') ++ [current_content st']
         = l1 ++ a :: b :: l2 ->
       exists d rest, b = d :: rest
         /\ max_size_mb * 1024 * 1024 < shard_size a + estimated_size d.
Proof.
  induction docs as [|d docs IH]; intros st Hst; simpl; [exact Hst|].
  apply IH. destruct Hst as (Hsize & Hne & Hadj). unfold add.
  destruct (Z.gtb_spec (current_size st + estimated_size d)
              (max_size_mb * 1024 * 1024)) as [Hgt|Hle]; simpl.
  - split; [lia|]. split; [discriminate|].
    intros l1 a b l2 H. unfold write_shard in H.
    rewrite map_app in H. simpl in H.
    apply neighbours_snoc in H as [(-> & -> & H)|(l2' & -> & H)].
    + apply app_inj_tail in H as [_ <-].
      exists d, []. split; [reflexivity|lia].
    + now apply (Hadj l1 a b l2').
  - split; [rewrite shard_size_app; lia|]. split.
    { intros _. now destruct (current_content st). }
    intros l1 a b l2 H.
    apply neighbours_snoc in H as [(-> & -> & H)|(l2' & -> & H)].
    + destruct (Hadj l1 a (current_content st) []) as (d0 & rest & E & Hd).
      { rewrite H. now rewrite <- app_assoc. }
      exists d0, (rest ++ [d]). split; [now rewrite E|exact Hd].
    + apply (Hadj l1 a b (l2' ++ [current_content st])).
      rewrite H. now rewrite <- app_assoc.
Qed.

(** X8.  A file is closed only when the next document does not fit: of
    two files written one after the other, the first document of the
    later one, added to the earlier one, would have exceeded the
    budget. *)
Theorem shards_are_greedy (max_size_mb : Z) (separator : str)
    (docs : list str) (l1 l2 : list shard_file) (a b : shard_file) :
  shards max_size_mb separator docs = l1 ++ a :: b :: l2 ->
  exists d rest,
    shard_docs b = d :: rest
    /\ max_size_mb * 1024 * 1024
       < shard_size (shard_docs a) + estimated_size d.
Proof.
  unfold shards.
  destruct (fold_add_greedy max_size_mb separator docs init)
    as (_ & Hne & Hadj).
  { split; [reflexivity|]. split; [now intros H|].
    intros k1 x y k2 H. simpl in H. now destruct k1 as [|? [|? ?]]. }
  fold (feed max_size_mb separator docs) in Hne, Hadj.
  unfold finalize.
  destruct (current_content (feed max_size_mb separator docs)) as [|c cc] eqn:E.
  - intros H.
    destruct (written (feed max_size_mb separator docs)) as [|w ws] eqn:Ew.
    + now destruct l1.
    + now destruct Hne.
  - simpl. unfold write_shard. rewrite E. intros H.
    apply (Hadj (map shard_docs l1) (shard_docs a) (shard_docs b)
             (map shard_docs l2)).
    apply (f_equal (map shard_docs)) in H.
    rewrite !map_app in H. simpl in H. exact H.
Qed.

Lemma shards_are_greedy_witness :
  let fs := shards 0 (py "|") [py "a"; py "b"] in
  fs = [] ++ {| shard_no := 1; shard_docs := []; shard_text := [] |}
          :: {| shard_no := 2; shard_docs := [py "a"]; shard_text := py "a" |}
          :: [ {| shard_no := 3; shard_docs := [py "b"]; shard_text := py "b" |} ]
  /\ exists d rest, [py "a"] = d :: rest
       /\ 0 * 1024 * 1024 < shard_size [] + estimated_size d.
Proof.
  intros fs.
  assert (H : fs = [] ++ {| shard_no := 1; shard_docs := []; shard_text := [] |}
          :: {| shard_no := 2; shard_docs := [py "a"]; shard_text := py "a" |}
          :: [ {| shard_no := 3; shard_docs := [py "b"]; shard_text := py "b" |} ])
    by (vm_compute; reflexivity).
  split; [exact H|].
  exact (shards_are_greedy 0 (py "|") [py "a"; py "b"] _ _ _ _ H).
Defined.

(** ** The combination, continued *)

Lemma count_lines_app (p : log_line -> bool) (l1 l2 : list log_line) :
  count_lines p (l1 ++ l2) = count_lines p l1 + count_lines p l2.
Proof.
  unfold count_lines. rewrite List.filter_app, length_app. lia.
Qed.

Lemma read_file_log (fs : gmap string (list byte)) (fb : encoding)
    (st st1 : pipeline) (file_path : string) (content : str) :
  read_file fs fb st file_path = Ok (content, st1) ->
  count_lines is_skipping_not_english (log st1)
    = count_lines is_skipping_not_english (log st)
  /\ count_lines is_skipping_too_short (log st1)
     = count_lines is_skipping_too_short (log st).
Proof.
  unfold read_file.
  destruct (open_read fs utf_8 file_path) as [c|[]]; try discriminate.
  - now intros [= <- <-].
  - destruct (open_read fs fb file_path); [|discriminate].
    intros [= <- <-]. simpl. rewrite !count_lines_app.
    unfold count_lines. simpl. lia.
Qed.

(** The three ways a step of the loop returns. *)
Lemma combine_step_cases (detect : str -> option string)
    (fs : gmap string (list byte)) (max_size_mb : Z) (separator : str)
    (fb : encoding) (st st' : pipeline) (file_path : string) :
  combine_step detect fs max_size_mb separator fb st file_path = Ok st' ->
  exists content st1,
    read_file fs fb st file_path = Ok (content, st1)
    /\ ((filter_document detect content = Rejected_language
         /\ st' = {| shard_acc := shard_acc st1;
                     stats := {| en := en (stats st1);
                                 other := other (stats st1) + 1 |};
                     log := log st1 ++ [Skipping_not_english file_path] |})
        \/ (filter_document detect content = Rejected_short
            /\ st' = {| shard_acc := shard_acc st1;
                        stats := {| en := en (stats st1) + 1;
                                    other := other (stats st1) |};
                        log := log st1 ++ [Skipping_too_short file_path] |})
        \/ (exists cleaned,
              filter_document detect content = Accepted cleaned
              /\ st' = {| shard_acc :=
                            add max_size_mb separator (shard_acc st1) cleaned;
                          stats := {| en := en (stats st1) + 1;
                                      other := other (stats st1) |};
                          log := log st1 |})).
Proof.
  unfold combine_step.
  destruct (read_file fs fb st file_path) as [[content st1]|e];
    [rewrite bind_ok|discriminate].
  cbn beta iota. intros H. exists content, st1. split; [reflexivity|].
  destruct (filter_document detect content) as [| |cleaned];
    injection H as <-; eauto 6.
Qed.

(** The account of a run of the loop: the documents it fed to the
    accumulator, and where each file was counted. *)
Lemma for_each_combine_account (detect : str -> option string)
    (fs : gmap string (list byte)) (max_size_mb : Z) (separator : str)
    (fb : encoding) (file_paths : list string) :
  forall st st',
  for_each (combine_step detect fs max_size_mb separator fb) file_paths st
    = Ok st' ->
  exists docs,
    shard_acc st' = fold_left (add max_size_mb separator) docs (shard_acc st)
    /\ Forall (accepted_from detect) docs
    /\ en (stats st') - en (stats st)
       = Z.of_nat (length docs)
         + (count_lines is_skipping_too_short (log st')
            - count_lines is_skipping_too_short (log st))
    /\ other (stats st') - other (stats st)
       = count_lines is_skipping_not_english (log st')
         - count_lines is_skipping_not_english (log st)
    /\ (en (stats st') + other (stats st')) - (en (stats st) + other (stats st))
       = Z.of_nat (length file_paths).
Proof.
  induction file_paths as [|p ps IH]; intros st st'; simpl.
  - intros [= <-]. exists []. repeat split; simpl; try constructor; lia.
  - destruct (combine_step detect fs max_size_mb separator fb st p)
      as [st1|e] eqn:E; [rewrite bind_ok|discriminate].
    intros H. destruct (IH _ _ H) as (docs & Hacc & Hdocs & Hen & Hother & Hsum).
    apply combine_step_cases in E as (content & st0 & R & Hcase).
    destruct (read_file_keeps_state _ _ _ _ _ _ R) as [Racc Rstats].
    destruct (read_file_log _ _ _ _ _ _ R) as [Rne Rshort].
    unfold count_lines in *.
    destruct Hcase as [[_ ->]|[[_ ->]|(cleaned & Hf & ->)]];
      simpl in Hacc, Hen, Hother, Hsum;
      rewrite ?List.filter_app, ?length_app in Hen, Hother;
      simpl in Hen, Hother.
    + exists docs. rewrite <- Racc, <- Rstats.
      repeat split; [exact Hacc|exact Hdocs|lia..].
    + exists docs. rewrite <- Racc, <- Rstats.
      repeat split; [exact Hacc|exact Hdocs|lia..].
    + exists (cleaned :: docs). rewrite <- Racc, <- Rstats.
      repeat split; [exact Hacc| |simpl length; lia..].
      constructor; [now exists content|exact Hdocs].
Qed.

Lemma combine_files_account (detect : str -> option string)
    (fs : gmap string (list byte)) (max_size_mb : Z) (separator : str)
    (fb : encoding) (file_paths : list string) (n : Z) (st : pipeline) :
  combine_files detect fs max_size_mb separator fb file_paths = Ok (n, st) ->
  exists docs,
    shard_acc st = finalize separator (feed max_size_mb separator docs)
    /\ n = file_counter (feed max_size_mb separator docs)
    /\ Forall (accepted_from detect) docs
    /\ en (stats st)
       = Z.of_nat (length docs) + count_lines is_skipping_too_short (log st)
    /\ other (stats st) = count_lines is_skipping_not_english (log st)
    /\ en (stats st) + other (stats st) = Z.of_nat (length file_paths).
Proof.
  unfold combine_files.
  destruct (for_each _ file_paths start) as [st1|e] eqn:E; [|discriminate].
  rewrite bind_ok. intros [= <- <-].
  destruct (for_each_combine_account _ _ _ _ _ _ _ _ E)
    as (docs & Hacc & Hdocs & Hen & Hother & Hsum).
  exists docs. simpl in *. unfold feed. rewrite <- Hacc.
  unfold count_lines in *. simpl in *.
  repeat split; try assumption; try lia.
  unfold finalize. now destruct (current_content (shard_acc st1)).
Qed.

(** X9.  The account of a run that returns: every input file is counted
    once, in [en] or in [other]; [other] is the number of files logged as
    not English; [en] is the number of documents that reached the shards
    plus the number of files logged as too short. *)
Theorem combine_files_accounting (detect : str -> option string)
    (fs : gmap string (list byte)) (max_size_mb : Z) (separator : str)
    (fb : encoding) (file_paths : list string) (n : Z) (st : pipeline) :
  combine_files detect fs max_size_mb separator fb file_paths = Ok (n, st) ->
  en (stats st) + other (stats st) = Z.of_nat (length file_paths)
  /\ other (stats st) = count_lines is_skipping_not_english (log st)
  /\ en (stats st)
     = Z.of_nat (length (concat (map shard_docs (written (shard_acc st)))))
       + count_lines is_skipping_too_short (log st).
Proof.
  intros H. destruct (combine_files_account _ _ _ _ _ _ _ _ H)
    as (docs & Hacc & _ & _ & Hen & Hother & Hsum).
  split; [exact Hsum|]. split; [exact Hother|].
  rewrite Hacc. fold (shards max_size_mb separator docs).
  now rewrite shards_documents.
Qed.

Lemma combine_files_accounting_witness :
  let paths := ["bad.txt"; "fr.txt"; "blank.txt"; "en.txt"]%string in
  exists n st,
    combine_files sample_detect sample_fs 500 (py "<|endoftext|>") latin1 paths
      = Ok (n, st)
    /\ en (stats st) + other (stats st) = 4
    /\ stats st = {| en := 2; other := 2 |}.
Proof.
  intros paths.
  destruct (combine_files sample_detect sample_fs 500 (py "<|endoftext|>")
              latin1 paths) as [[n st]|e] eqn:E;
    [|vm_compute in E; discriminate].
  exists n, st. split; [reflexivity|].
  split; [exact (proj1 (combine_files_accounting _ _ _ _ _ _ _ _ E))|].
  vm_compute in E. now injection E as <- <-.
Defined.

(** X10.  The number that a run returns is the number of files it wrote,
    except that it is 1 when it wrote none. *)
Theorem combine_files_returned_count (detect : str -> option string)
    (fs : gmap string (list byte)) (max_size_mb : Z) (separator : str)
    (fb : encoding) (file_paths : list string) (n : Z) (st : pipeline) :
  combine_files detect fs max_size_mb separator fb file_paths = Ok (n, st) ->
  n = Z.max 1 (Z.of_nat (length (written (shard_acc st)))).
Proof.
  intros H. destruct (combine_files_account _ _ _ _ _ _ _ _ H)
    as (docs & Hacc & Hn & _).
  rewrite Hacc, Hn. fold (shards max_size_mb separator docs).
  rewrite returned_count.
  destruct docs as [|d docs]; [reflexivity|].
  pose proof (shards_documents max_size_mb separator (d :: docs)) as Hd.
  destruct (shards max_size_mb separator (d :: docs)); [discriminate|].
  simpl length. lia.
Qed.

Lemma combine_files_returned_count_witness :
  exists n st,
    combine_files sample_detect sample_fs 500 (py "<|endoftext|>") latin1
      ["fr.txt"; "en.txt"]%string = Ok (n, st)
    /\ n = 1 /\ length (written (shard_acc st)) = 1%nat.
Proof.
  destruct (combine_files sample_detect sample_fs 500 (py "<|endoftext|>")
              latin1 ["fr.txt"; "en.txt"]%string) as [[n st]|e] eqn:E;
    [|vm_compute in E; discriminate].
  exists n, st. split; [reflexivity|].
  pose proof (combine_files_returned_count _ _ _ _ _ _ _ _ E) as Hn.
  assert (Hw : length (written (shard_acc st)) = 1%nat).
  { vm_compute in E. now injection E as <- <-. }
  rewrite Hw in Hn. split; [exact Hn|exact Hw].
Defined.





Lemma lstrip_length (s : str) : (length (lstrip s) <= length s)%nat.
Proof.
  induction s as [|c s IH]; simpl; [lia|].
  destruct (is_space c); simpl; lia.
Qed.

Lemma strip_length (s : str) : (length (strip s) <= length s)%nat.
Proof.
  unfold strip, rstrip. rewrite length_rev.
  pose proof (lstrip_length (rev (lstrip s))) as H1.
  pose proof (lstrip_length s) as H2.
  rewrite length_rev in H1. lia.
Qed.

(** Every character takes at least one byte and at most four. *)
Lemma estimated_size_bounds (s : str) :
  Z.of_nat (length s) <= estimated_size s <= 4 * Z.of_nat (length s).
Proof.
  unfold estimated_size, utf8_encode.
  induction s as [|c s IH]; simpl; [lia|].
  rewrite length_app.
  assert (1 <= length (utf8_encode_char c) <= 4)%nat.
  { unfold utf8_encode_char.
    destruct (c <? 128)%N; [simpl; lia|].
    destruct (c <? 2048)%N; [simpl; lia|].
    destruct (c <? 65536)%N; simpl; lia. }
  lia.
Qed.

(** X12.  Every document in a written file passed the filter: it is the
    cleaned form of a text that the language check accepted, it has at
    least 100 characters once trimmed, and so takes at least 100 bytes
    of its file. *)
Theorem combine_files_documents_accepted (detect : str -> option string)
    (fs : gmap string (list byte)) (max_size_mb : Z) (separator : str)
    (fb : encoding) (file_paths : list string) (n : Z) (st : pipeline) :
  combine_files detect fs max_size_mb separator fb file_paths = Ok (n, st) ->
  Forall (fun f =>
    Forall (fun d =>
      (exists content,
         is_english_using_langdetect detect content = true
         /\ d = normalize_blank_lines (remove_gutenberg_boilerplate content))
      /\ (100 <= length (strip d))%nat
      /\ 100 <= estimated_size d) (shard_docs f))
    (written (shard_acc st)).
Proof.
  intros H. destruct (combine_files_account _ _ _ _ _ _ _ _ H)
    as (docs & Hacc & _ & Hdocs & _).
  assert (Hall : Forall (fun d =>
      (exists content,
         is_english_using_langdetect detect content = true
         /\ d = normalize_blank_lines (remove_gutenberg_boilerplate content))
      /\ (100 <= length (strip d))%nat
      /\ 100 <= estimated_size d) docs).
  { eapply Forall_impl; [exact Hdocs|]. intros d [content Hf].
    unfold filter_document in Hf.
    destruct (is_english_using_langdetect detect content) eqn:He;
      [|discriminate]. cbn [negb] in Hf. cbv zeta in Hf.
    destruct (Nat.ltb_spec
                (length (strip (normalize_blank_lines
                                  (remove_gutenberg_boilerplate content))))
                100) as [|Hlen]; [discriminate|].
    injection Hf as <-. split; [now exists content|]. split; [exact Hlen|].
    pose proof (strip_length (normalize_blank_lines
                                (remove_gutenberg_boilerplate content))).
    pose proof (estimated_size_bounds (normalize_blank_lines
                                (remove_gutenberg_boilerplate content))).
    lia. }
  rewrite Hacc. fold (shards max_size_mb separator docs).
  rewrite <- (shards_documents max_size_mb separator docs) in Hall.
  clear -Hall.
  induction (shards max_size_mb separator docs) as [|f fs IH];
    [constructor|].
  simpl in Hall. apply Forall_app in Hall as [Hf Hfs].
  constructor; [exact Hf|now apply IH].
Qed.

Lemma combine_files_documents_accepted_witness :
  exists n st,
    combine_files sample_detect sample_fs 500 (py "<|endoftext|>") latin1
      ["fr.txt"; "en.txt"]%string = Ok (n, st)
    /\ Forall (fun f => Forall (fun d => 100 <= estimated_size d)
                          (shard_docs f)) (written (shard_acc st)).
Proof.
  destruct (combine_files sample_detect sample_fs 500 (py "<|endoftext|>")
              latin1 ["fr.txt"; "en.txt"]%string) as [[n st]|e] eqn:E;
    [|vm_compute in E; discriminate].
  exists n, st. split; [reflexivity|].
  eapply Forall_impl;
    [exact (combine_files_documents_accepted _ _ _ _ _ _ _ _ E)|].
  intros f Hf. eapply Forall_impl; [exact Hf|]. now intros d (_ & _ & Hd).
Defined.

(** X25.  The size that the accumulator counts for a document is its
    length in bytes as UTF-8: at least one byte and at most four for each
    character, and exactly one for each character of an ASCII text. *)
Theorem estimated_size_per_character (content : str) :
  Z.of_nat (length content) <= estimated_size content
    <= 4 * Z.of_nat (length content)
  /\ (Forall (fun c => (c < 128)%N) content ->
      estimated_size content = Z.of_nat (length content)).
Proof.
  split; [apply estimated_size_bounds|].
  unfold estimated_size, utf8_encode.
  induction 1 as [|c s Hc Hs IH]; [reflexivity|].
  cbn [flat_map]. rewrite length_app.
  unfold utf8_encode_char at 1.
  destruct (N.ltb_spec c 128); [|lia]. simpl length. lia.
Qed.

Lemma estimated_size_per_character_witness :
  Forall (fun c => (c < 128)%N) english_text
  /\ estimated_size english_text = Z.of_nat (length english_text).
Proof.
  assert (H : Forall (fun c => (c < 128)%N) english_text).
  { apply Forall_forall. intros c Hc. vm_compute in Hc.
    repeat (apply elem_of_cons in Hc as [->|Hc]; [reflexivity|]).
    now apply elem_of_nil in Hc. }
  split; [exact H|].
  exact (proj2 (estimated_size_per_character english_text) H).
Defined.

(** ** The language pre-scan, continued *)

Lemma check_english_files_snoc (detect : str -> option string)
    (read_1000 : encoding -> string -> exc str)
    (files : list string) (p : string) :
  check_english_files detect read_1000 (files ++ [p])
  = <[basename p := check_file detect read_1000 p]>
      (check_english_files detect read_1000 files).
Proof. unfold check_english_files. now rewrite fold_left_app. Qed.

(** Every entry of the results is the entry of one of the files, under
    its base name. *)
Lemma check_english_files_entry (detect : str -> option string)
    (read_1000 : encoding -> string -> exc str)
    (files : list string) (name : string) (r : lang_result) :
  check_english_files detect read_1000 files !! name = Some r ->
  exists p, p ∈ files /\ basename p = name
            /\ r = check_file detect read_1000 p.
Proof.
  induction files as [|p files IH] using rev_ind.
  - unfold check_english_files. simpl. now rewrite lookup_empty.
  - rewrite check_english_files_snoc.
    destruct (decide (basename p = name)) as [E|E].
    + rewrite E, lookup_insert_eq. intros [= <-].
      exists p. split; [|auto]. apply elem_of_app. right.
      apply list_elem_of_here.
    + rewrite lookup_insert_ne by exact E. intros H.
      destruct (IH H) as (q & Hq & Hb & Hr).
      exists q. split; [|auto]. apply elem_of_app. now left.
Qed.

Lemma classify_sample_consistent (detect : str -> option string)
    (on_error : scan_error) (raw : str) :
  let r := classify_sample detect on_error raw in
  (is_english r = true -> language r = "en"%string /\ error r = None)
  /\ (error r <> None ->
      is_english r = false /\ language r = "unknown"%string).
Proof.
  unfold classify_sample. destruct (strip raw) as [|c s].
  - simpl. split; [discriminate|auto].
  - destruct (detect (c :: s)) as [lang|]; simpl.
    + split; [|now intros H]. intros H. apply String.eqb_eq in H. auto.
    + split; [discriminate|auto].
Qed.

Lemma check_file_consistent (detect : str -> option string)
    (read_1000 : encoding -> string -> exc str) (p : string) :
  let r := check_file detect read_1000 p in
  (is_english r = true -> language r = "en"%string /\ error r = None)
  /\ (error r <> None ->
      is_english r = false /\ language r = "unknown"%string).
Proof.
  unfold check_file.
  destruct (read_1000 utf_8 p) as [raw|[]];
    try apply classify_sample_consistent;
    try (simpl; split; [discriminate|auto]).
  destruct (read_1000 latin1 p) as [raw|e];
    [apply classify_sample_consistent|simpl; split; [discriminate|auto]].
Qed.

(** X13.  The entries of the pre-scan are consistent: a file is marked
    English only with the language [en] and no error, and an entry with an
    error is never English and has the language [unknown]. *)
Theorem check_english_files_consistent (detect : str -> option string)
    (read_1000 : encoding -> string -> exc str)
    (files : list string) (name : string) (r : lang_result) :
  check_english_files detect read_1000 files !! name = Some r ->
  (is_english r = true -> language r = "en"%string /\ error r = None)
  /\ (error r <> None ->
      is_english r = false /\ language r = "unknown"%string).
Proof.
  intros H. apply check_english_files_entry in H as (p & _ & _ & ->).
  apply check_file_consistent.
Qed.

Lemma check_english_files_consistent_witness :
  let results :=
    check_english_files sample_detect (sample_reader sample_fs)
      ["fr.txt"; "en.txt"]%string in
  results !! "en.txt"%string
    = Some {| is_english := true; language := "en"; error := None |}
  /\ (true = true -> "en"%string = "en"%string /\ @None scan_error = None).
Proof.
  intros results.
  assert (H : results !! "en.txt"%string
    = Some {| is_english := true; language := "en"; error := None |})
    by (vm_compute; reflexivity).
  split; [exact H|].
  exact (proj1 (check_english_files_consistent _ _ _ _ _ H)).
Defined.

Lemma check_english_files_dom (detect : str -> option string)
    (read_1000 : encoding -> string -> exc str) (files : list string)
    (name : string) :
  is_Some (check_english_files detect read_1000 files !! name)
  <-> exists p, p ∈ files /\ basename p = name.
Proof.
  split.
  - intros [r Hr]. apply check_english_files_entry in Hr as (p & Hp & Hb & _).
    eauto.
  - intros (p & Hp & <-). induction files as [|q files IH] using rev_ind.
    + now apply elem_of_nil in Hp.
    + rewrite check_english_files_snoc.
      destruct (decide (basename q = basename p)) as [E|E].
      * rewrite E, lookup_insert_eq. eauto.
      * rewrite lookup_insert_ne by exact E. apply IH.
        apply elem_of_app in Hp as [Hp|Hp]; [exact Hp|].
        apply list_elem_of_singleton in Hp. congruence.
Qed.

Lemma check_english_files_size (detect : str -> option string)
    (read_1000 : encoding -> string -> exc str) (files : list string) :
  (size (check_english_files detect read_1000 files) <= length files)%nat.
Proof.
  induction files as [|q files IH] using rev_ind.
  - unfold check_english_files. simpl. now rewrite map_size_empty.
  - rewrite check_english_files_snoc, length_app. simpl.
    destruct (check_english_files detect read_1000 files !! basename q)
      as [r|] eqn:E.
    + rewrite map_size_insert_Some by eauto. lia.
    + rewrite map_size_insert_None by exact E. lia.
Qed.

(** X14.  The results are keyed by base name: a name has an entry exactly
    when some scanned file has it as base name; when several files share a
    base name the entry is that of the last of them, the earlier ones are
    overwritten, and the results have fewer entries than there are
    files. *)
Theorem check_english_files_keys (detect : str -> option string)
    (read_1000 : encoding -> string -> exc str)
    (before after : list string) (p : string) :
  (forall q, q ∈ after -> basename q <> basename p) ->
  let results :=
    check_english_files detect read_1000 (before ++ p :: after) in
  results !! basename p = Some (check_file detect read_1000 p)
  /\ (forall name, is_Some (results !! name)
        <-> exists q, q ∈ before ++ p :: after /\ basename q = name)
  /\ (size results <= length (before ++ p :: after))%nat
  /\ ((exists q, q ∈ before /\ basename q = basename p) ->
      (size results < length (before ++ p :: after))%nat).
Proof.
  intros Hafter results. subst results. split; [|split; [|split]].
  - induction after as [|q after IH] using rev_ind.
    + apply check_english_files_last.
    + change (before ++ p :: after ++ [q])
        with (before ++ (p :: after) ++ [q]).
      rewrite app_assoc, check_english_files_snoc.
      rewrite lookup_insert_ne.
      * apply IH. intros q' Hq'. apply Hafter, elem_of_app. now left.
      * apply Hafter, elem_of_app. right. apply list_elem_of_here.
  - intros name. apply check_english_files_dom.
  - apply check_english_files_size.
  - intros (q & Hq & Hb). clear Hafter.
    induction after as [|a after IH] using rev_ind.
    + change (before ++ [p]) with (before ++ [p]).
      rewrite check_english_files_snoc, length_app. simpl.
      assert (Hs : is_Some (check_english_files detect read_1000 before
                              !! basename p)).
      { apply check_english_files_dom. eauto. }
      rewrite map_size_insert_Some by exact Hs.
      pose proof (check_english_files_size detect read_1000 before). lia.
    + change (before ++ p :: after ++ [a])
        with (before ++ (p :: after) ++ [a]).
      rewrite app_assoc, check_english_files_snoc, length_app. simpl.
      destruct (check_english_files detect read_1000 (before ++ p :: after)
                  !! basename a) as [r|] eqn:E.
      * rewrite map_size_insert_Some by eauto. lia.
      * rewrite map_size_insert_None by exact E. lia.
Qed.

Lemma check_english_files_keys_witness :
  let read := sample_reader
                (<["a/x.txt"%string := list_byte_of_string "     "]>
                 (<["b/x.txt"%string := list_byte_of_string "Hello there"]> ∅)) in
  (forall q, q ∈ [] -> basename q <> basename "b/x.txt")
  /\ check_english_files sample_detect read ["a/x.txt"; "b/x.txt"]%string
       !! "x.txt"%string
     = Some {| is_english := true; language := "en"; error := None |}.
Proof.
  intros read.
  assert (H : forall q : string, q ∈ [] -> basename q <> basename "b/x.txt")
    by (intros q Hq; now apply elem_of_nil in Hq).
  split; [exact H|].
  pose proof (proj1 (check_english_files_keys sample_detect read
                       ["a/x.txt"%string] [] "b/x.txt"%string H)) as K.
  transitivity (Some (check_file sample_detect read "b/x.txt"));
    [exact K|vm_compute; reflexivity].
Defined.

(** ** The clean-up diagnostic, continued *)

Lemma percent_of_bounds (a b : Z) (q : Q) :
  0 <= a <= b -> percent_of a b = Ok q -> (0 <= q <= 100)%Q.
Proof.
  intros [Ha Hab]. unfold percent_of.
  destruct (Z.eqb_spec b 0) as [|Hb]; [discriminate|]. intros [= <-].
  assert (Hpos : (0 < inject_Z b)%Q).
  { unfold Qlt, inject_Z. simpl. lia. }
  assert (H0 : (0 <= inject_Z a)%Q).
  { unfold Qle, inject_Z. simpl. lia. }
  assert (H1 : (inject_Z a <= inject_Z b)%Q).
  { unfold Qle, inject_Z. simpl. lia. }
  split.
  - apply Qmult_le_0_compat; [|discriminate].
    apply Qle_shift_div_l; [exact Hpos|]. now rewrite Qmult_0_l.
  - apply Qle_trans with (1 * inject_Z 100)%Q; [|discriminate].
    apply Qmult_le_compat_r; [|discriminate].
    apply Qle_shift_div_r; [exact Hpos|]. now rewrite Qmult_1_l.
Qed.

(** X15.  What the diagnostic returns and reports: the second text
    returned is the stripped form of the first; the number of removed
    characters is the difference of the two lengths and lies between 0
    and the length of the original; the reported share lies between 0
    and 100. *)
Theorem clean_and_verify_gutenberg_report (fs : gmap string (list byte))
    (file_path : string) (fb : encoding) (original cleaned : str)
    (report : cleanup_report) :
  clean_and_verify_gutenberg fs file_path fb = Ok (original, cleaned, report) ->
  cleaned = remove_gutenberg_boilerplate original
  /\ original_chars report = Z.of_nat (length original)
  /\ cleaned_chars report = Z.of_nat (length cleaned)
  /\ removed_chars report = original_chars report - cleaned_chars report
  /\ 0 <= removed_chars report <= original_chars report
  /\ (0 <= removed_percent report <= 100)%Q.
Proof.
  unfold clean_and_verify_gutenberg.
  set (r := match open_read fs utf_8 file_path with
            | Raise UnicodeDecodeError => open_read fs fb file_path
            | other => other
            end).
  destruct r as [o|e]; [rewrite bind_ok|discriminate].
  pose proof (remove_gutenberg_boilerplate_length o) as Hlen.
  destruct (percent_of (Z.of_nat (length o)
                        - Z.of_nat (length (remove_gutenberg_boilerplate o)))
              (Z.of_nat (length o))) as [q|e] eqn:Hq;
    [rewrite bind_ok|discriminate].
  intros [= <- <- <-]. simpl.
  repeat split; try lia.
  - apply (percent_of_bounds _ _ q) in Hq; [apply Hq|lia].
  - apply (percent_of_bounds _ _ q) in Hq; [apply Hq|lia].
Qed.

Lemma clean_and_verify_gutenberg_report_witness :
  exists original cleaned report,
    clean_and_verify_gutenberg sample_fs "en.txt" latin1
      = Ok (original, cleaned, report)
    /\ cleaned = remove_gutenberg_boilerplate original
    /\ removed_chars report = 0.
Proof.
  destruct (clean_and_verify_gutenberg sample_fs "en.txt" latin1)
    as [[[o c] rep]|e] eqn:E; [|vm_compute in E; discriminate].
  exists o, c, rep. split; [reflexivity|].
  split; [exact (proj1 (clean_and_verify_gutenberg_report _ _ _ _ _ _ E))|].
  vm_compute in E. now injection E as <- <- <-.
Defined.

(** X16.  The lines that the diagnostic prints as removed are the first
    15 lines of the original at most, whatever the stripper did: on a text
    of at most 15 lines nothing was removed and yet every line is
    printed; on a longer text 15 lines are printed and at least 16 were
    removed. *)
Theorem removed_lines_shown_count (text : str) :
  length (removed_lines_shown text)
  = Nat.min 15 (length (split_lines text))
  /\ ((length (split_lines text) <= 15)%nat ->
      remove_gutenberg_boilerplate text = text
      /\ removed_lines_shown text <> [])
  /\ ((15 < length (split_lines text))%nat ->
      length (removed_lines_shown text) = 15%nat
      /\ 16 <= lines_removed text).
Proof.
  assert (Hlen : length (removed_lines_shown text)
                 = Nat.min 15 (length (split_lines text))).
  { unfold removed_lines_shown. now rewrite length_imap, length_take. }
  split; [exact Hlen|]. split.
  - intros H. split; [now apply remove_gutenberg_boilerplate_short|].
    intros E. rewrite E in Hlen. simpl in Hlen.
    pose proof (split_lines_nonempty text) as Hne.
    destruct (split_lines text); [contradiction|simpl in Hlen; lia].
  - intros H. split; [lia|].
    unfold lines_removed. rewrite List.length_skipn. lia.
Qed.

Lemma removed_lines_shown_count_witness :
  (15 < length (split_lines fifty_lines))%nat
  /\ length (removed_lines_shown fifty_lines) = 15%nat
  /\ 16 <= lines_removed fifty_lines.
Proof.
  assert (H : (15 < length (split_lines fifty_lines))%nat)
    by (vm_compute; lia).
  split; [exact H|].
  exact (proj2 (proj2 (removed_lines_shown_count fifty_lines)) H).
Defined.

(** ** The summary of the pre-scan *)

Lemma dict_set_absent {V : Type} (k : string) (v : V) (d : list (string * V)) :
  dict_get k d = None -> dict_set k v d = d ++ [(k, v)].
Proof.
  induction d as [|[k' v'] d IH]; simpl; [reflexivity|].
  destruct (String.eqb k' k); [discriminate|].
  intros H. now rewrite IH.
Qed.

Lemma dict_get_set {V : Type} (k k' : string) (v : V) (d : list (string * V)) :
  dict_get k' (dict_set k v d)
  = if String.eqb k k' then Some v else dict_get k' d.
Proof.
  induction d as [|[k0 v0] d IH]; simpl.
  - reflexivity.
  - destruct (String.eqb_spec k0 k) as [->|Hk0]; simpl.
    + destruct (String.eqb k k'); reflexivity.
    + rewrite IH. destruct (String.eqb_spec k0 k') as [->|]; [|reflexivity].
      destruct (String.eqb_spec k k'); [congruence|reflexivity].
Qed.

Lemma dict_set_keys {V : Type} (k : string) (v : V) (d : list (string * V)) :
  map fst (dict_set k v d)
  = match dict_get k d with
    | Some _ => map fst d
    | None => map fst d ++ [k]
    end.
Proof.
  induction d as [|[k0 v0] d IH]; simpl; [reflexivity|].
  destruct (String.eqb_spec k0 k) as [->|Hk0]; simpl; [reflexivity|].
  rewrite IH. now destruct (dict_get k d).
Qed.

Lemma dict_get_None_keys {V : Type} (k : string) (d : list (string * V)) :
  dict_get k d = None <-> k ∉ map fst d.
Proof.
  induction d as [|[k0 v0] d IH]; simpl.
  - split; [intros _; apply not_elem_of_nil|reflexivity].
  - destruct (String.eqb_spec k0 k) as [->|Hk0].
    + split; [discriminate|]. intros H. exfalso. apply H, list_elem_of_here.
    + rewrite IH. split.
      * intros H Hin. apply elem_of_cons in Hin as [Hin|Hin]; [congruence|auto].
      * intros H Hin. apply H. now apply list_elem_of_further.
Qed.

Lemma dict_set_NoDup {V : Type} (k : string) (v : V) (d : list (string * V)) :
  NoDup (map fst d) -> NoDup (map fst (dict_set k v d)).
Proof.
  intros H. rewrite dict_set_keys. destruct (dict_get k d) eqn:E; [exact H|].
  apply NoDup_app. split; [exact H|]. split.
  - intros x Hx Hk. apply list_elem_of_singleton in Hk. subst x.
    now apply dict_get_None_keys in E.
  - apply NoDup_singleton.
Qed.

Lemma sum_counts_app (d1 d2 : list (string * Z)) :
  sum_counts (d1 ++ d2) = sum_counts d1 + sum_counts d2.
Proof.
  unfold sum_counts. induction d1 as [|x d1 IH]; simpl; [reflexivity|].
  rewrite IH. lia.
Qed.

Lemma sum_counts_set (k : string) (n m : Z) (d : list (string * Z)) :
  dict_get k d = Some n ->
  sum_counts (dict_set k m d) = sum_counts d + m - n.
Proof.
  unfold sum_counts.
  induction d as [|[k0 v0] d IH]; simpl; [discriminate|].
  destruct (String.eqb k0 k).
  - intros [= ->]. simpl. lia.
  - intros H. simpl. rewrite (IH H). lia.
Qed.

(** One entry adds one file to its language: a new language enters at the
    end with the count 1, a known one gets one more in place. *)
Lemma count_language_spec (language_counts : list (string * Z))
    (result : lang_result) :
  count_language language_counts result
  = match dict_get (language result) language_counts with
    | None => language_counts ++ [(language result, 1)]
    | Some n => dict_set (language result) (n + 1) language_counts
    end.
Proof.
  unfold count_language.
  destruct (dict_get (language result) language_counts) as [n|] eqn:E.
  - now rewrite E.
  - rewrite dict_get_set, String.eqb_refl.
    rewrite (dict_set_absent _ 0 _ E).
    induction language_counts as [|[k0 v0] d IH]; simpl.
    + now rewrite String.eqb_refl.
    + simpl in E. destruct (String.eqb k0 (language result)); [discriminate|].
      now rewrite (IH E).
Qed.

Lemma count_language_sum (lc : list (string * Z)) (r : lang_result) :
  sum_counts (count_language lc r) = sum_counts lc + 1.
Proof.
  rewrite count_language_spec.
  destruct (dict_get (language r) lc) as [n|] eqn:E.
  - rewrite (sum_counts_set _ n _ _ E). lia.
  - rewrite sum_counts_app. unfold sum_counts. simpl. lia.
Qed.

Lemma count_language_NoDup (lc : list (string * Z)) (r : lang_result) :
  NoDup (map fst lc) -> NoDup (map fst (count_language lc r)).
Proof.
  intros H. rewrite count_language_spec.
  destruct (dict_get (language r) lc) as [n|] eqn:E.
  - now apply dict_set_NoDup.
  - rewrite <- (dict_set_absent _ 1 _ E). now apply dict_set_NoDup.
Qed.

Lemma dict_set_Forall {V : Type} (P : string * V -> Prop) (k : string) (v : V)
    (d : list (string * V)) :
  Forall P d -> P (k, v) -> Forall P (dict_set k v d).
Proof.
  intros Hd Hk. induction Hd as [|[k0 v0] d H0 Hd IH]; simpl.
  - now constructor.
  - destruct (String.eqb k0 k); constructor; auto.
Qed.

Lemma dict_get_Forall {V : Type} (P : string * V -> Prop) (k : string) (v : V)
    (d : list (string * V)) :
  Forall P d -> dict_get k d = Some v -> P (k, v).
Proof.
  intros Hd. induction Hd as [|[k0 v0] d H0 Hd IH]; simpl; [discriminate|].
  destruct (String.eqb_spec k0 k) as [->|]; [|exact IH].
  now intros [= <-].
Qed.

Lemma count_language_positive (lc : list (string * Z)) (r : lang_result) :
  Forall (fun kv => 1 <= snd kv) lc ->
  Forall (fun kv => 1 <= snd kv) (count_language lc r).
Proof.
  intros H. rewrite count_language_spec.
  destruct (dict_get (language r) lc) as [n|] eqn:E.
  - apply dict_set_Forall; [exact H|].
    pose proof (dict_get_Forall _ _ _ _ H E) as Hn. simpl in *. lia.
  - apply Forall_app. split; [exact H|]. repeat constructor. simpl. lia.
Qed.

Lemma count_language_count_of (lang : string) (lc : list (string * Z))
    (r : lang_result) :
  count_of lang (count_language lc r)
  = count_of lang lc + (if String.eqb (language r) lang then 1 else 0).
Proof.
  rewrite count_language_spec. unfold count_of.
  destruct (dict_get (language r) lc) as [n|] eqn:E.
  - rewrite dict_get_set.
    destruct (String.eqb_spec (language r) lang) as [<-|]; [|lia].
    now rewrite E.
  - rewrite <- (dict_set_absent _ 1 _ E), dict_get_set.
    destruct (String.eqb_spec (language r) lang) as [<-|]; [|lia].
    rewrite E. lia.
Qed.

(** The counts after all the entries. *)
Lemma fold_count_language (rs : list lang_result) :
  forall lc,
  NoDup (map fst lc) -> Forall (fun kv => 1 <= snd kv) lc ->
  let lc' := fold_left count_language rs lc in
  sum_counts lc' = sum_counts lc + Z.of_nat (length rs)
  /\ NoDup (map fst lc')
  /\ Forall (fun kv => 1 <= snd kv) lc'
  /\ forall lang,
       count_of lang lc'
       = count_of lang lc
         + Z.of_nat (length (List.filter
                               (fun r => String.eqb (language r) lang) rs)).
Proof.
  induction rs as [|r rs IH]; intros lc Hnd Hpos; simpl.
  - repeat split; auto; intros; lia.
  - destruct (IH (count_language lc r)
                (count_language_NoDup lc r Hnd)
                (count_language_positive lc r Hpos))
      as (Hs & Hn & Hp & Hc).
    repeat split; auto.
    + rewrite Hs, count_language_sum. lia.
    + intros lang. rewrite Hc, count_language_count_of.
      destruct (String.eqb (language r) lang); simpl; lia.
Qed.

(** The sort permutes its list and orders it by decreasing count. *)
Lemma insert_by_count_perm (x : string * Z) (l : list (string * Z)) :
  insert_by_count x l ≡ₚ x :: l.
Proof.
  induction l as [|y l IH]; simpl; [reflexivity|].
  destruct (snd y >? snd x); [|reflexivity].
  rewrite IH. apply Permutation_swap.
Qed.

Lemma sorted_by_count_perm (l : list (string * Z)) : sorted_by_count l ≡ₚ l.
Proof.
  induction l as [|x l IH]; simpl; [reflexivity|].
  unfold sorted_by_count in *. simpl. now rewrite insert_by_count_perm, IH.
Qed.

Lemma insert_by_count_sorted (x : string * Z) (l : list (string * Z)) :
  StronglySorted (fun a b => snd b <= snd a) l ->
  StronglySorted (fun a b => snd b <= snd a) (insert_by_count x l).
Proof.
  induction 1 as [|y l Hl IH Hy]; simpl.
  - repeat constructor.
  - destruct (Z.gtb_spec (snd y) (snd x)) as [Hgt|Hle].
    + constructor; [exact IH|].
      rewrite insert_by_count_perm. constructor; [lia|exact Hy].
    + constructor; [now constructor|].
      constructor; [lia|].
      eapply Forall_impl; [exact Hy|]. intros z Hz. simpl in Hz. lia.
Qed.

Lemma sorted_by_count_sorted (l : list (string * Z)) :
  StronglySorted (fun a b => snd b <= snd a) (sorted_by_count l).
Proof.
  induction l as [|x l IH]; [constructor|].
  unfold sorted_by_count in *. simpl. now apply insert_by_count_sorted.
Qed.

Lemma sum_counts_perm (l1 l2 : list (string * Z)) :
  l1 ≡ₚ l2 -> sum_counts l1 = sum_counts l2.
Proof.
  unfold sum_counts. induction 1; simpl; lia.
Qed.

(** X17.  The language distribution of the summary: every entry of the
    results is counted under exactly one language, so the counts add up to
    the total; each language is listed once, with a count of 1 or more;
    and the list is in order of decreasing count. *)
Theorem print_summary_distribution (results : list (string * lang_result)) :
  let s := print_summary results in
  sum_counts (language_distribution s) = total s
  /\ total s = Z.of_nat (length results)
  /\ NoDup (map fst (language_distribution s))
  /\ Forall (fun kv => 1 <= snd kv) (language_distribution s)
  /\ StronglySorted (fun a b => snd b <= snd a) (language_distribution s).
Proof.
  simpl.
  destruct (fold_count_language (map snd results) [] (NoDup_nil_2)
              (List.Forall_nil _)) as (Hs & Hn & Hp & _).
  rewrite length_map in Hs.
  pose proof (sorted_by_count_perm
                (fold_left count_language (map snd results) [])) as Hperm.
  repeat split.
  - rewrite (sum_counts_perm _ _ Hperm), Hs. unfold sum_counts. simpl. lia.
  - now rewrite Hperm.
  - now rewrite Hperm.
  - apply sorted_by_count_sorted.
Qed.

Lemma filter_split_length {A : Type} (p : A -> bool) (l : list A) :
  (length (List.filter p l) + length (List.filter (fun x => negb (p x)) l)
   = length l)%nat.
Proof.
  induction l as [|x l IH]; simpl; [reflexivity|].
  destruct (p x); simpl; lia.
Qed.

(** X18.  The counts of the summary: the English files are at most the
    total, the files that are not English are the rest, and the sample
    lists the first of them, ten at most, each with the language recorded
    for it. *)
Theorem print_summary_counts (results : list (string * lang_result)) :
  let s := print_summary results in
  0 <= english_count s <= total s
  /\ english_count s + non_english_count s = total s
  /\ Z.of_nat (length (non_english_sample s)) = Z.min 10 (non_english_count s)
  /\ Forall (fun e => exists r, (fst e, r) ∈ results
                        /\ is_english r = false /\ language r = snd e)
       (non_english_sample s).
Proof.
  simpl.
  pose proof (filter_split_length (fun kv => is_english (snd kv)) results)
    as Hsplit.
  set (eng := List.filter (fun kv => is_english (snd kv)) results) in *.
  set (non := List.filter (fun kv => negb (is_english (snd kv))) results) in *.
  split; [lia|]. split; [lia|].
  assert (Hnon : Z.of_nat (length results) - Z.of_nat (length eng)
                 = Z.of_nat (length non)) by lia.
  rewrite Hnon.
  assert (Hall : Forall (fun e => exists r, (fst e, r) ∈ results
                   /\ is_english r = false /\ language r = snd e)
                   (map (fun kv => (fst kv, language (snd kv))) non)).
  { apply List.Forall_forall. intros e He.
    apply in_map_iff in He as ([name r] & <- & Hin).
    apply List.filter_In in Hin as [Hin Hne]. simpl in *.
    exists r. split; [now apply list_elem_of_In|].
    split; [now destruct (is_english r)|reflexivity]. }
  destruct (Z.gtb_spec (Z.of_nat (length non)) 0) as [Hpos|Hzero].
  - split.
    + rewrite length_take, length_map. lia.
    + now apply Forall_take.
  - split; [simpl; lia|constructor].
Qed.

Lemma dict_get_Some_elem {V : Type} (k : string) (v : V)
    (d : list (string * V)) :
  NoDup (map fst d) -> (dict_get k d = Some v <-> (k, v) ∈ d).
Proof.
  induction d as [|[k0 v0] d IH]; simpl; intros Hnd.
  - split; [discriminate|]. intros H. now apply elem_of_nil in H.
  - apply NoDup_cons in Hnd as [Hk0 Hnd].
    destruct (String.eqb_spec k0 k) as [->|Hne].
    + split.
      * intros [= ->]. apply list_elem_of_here.
      * intros H. apply elem_of_cons in H as [[= ->]|H]; [reflexivity|].
        exfalso. apply Hk0. apply list_elem_of_fmap. now exists (k, v).
    + rewrite (IH Hnd). split.
      * intros H. now apply list_elem_of_further.
      * intros H. apply elem_of_cons in H as [[= <- _]|H]; [congruence|exact H].
Qed.

Lemma dict_get_perm {V : Type} (k : string) (d1 d2 : list (string * V)) :
  NoDup (map fst d1) -> d1 ≡ₚ d2 -> dict_get k d1 = dict_get k d2.
Proof.
  intros Hnd Hperm.
  assert (Hnd2 : NoDup (map fst d2)) by now rewrite <- Hperm.
  destruct (dict_get k d1) as [v|] eqn:E1.
  - symmetry. apply (dict_get_Some_elem k v d2 Hnd2). rewrite <- Hperm.
    now apply (dict_get_Some_elem k v d1 Hnd).
  - destruct (dict_get k d2) as [v|] eqn:E2; [|reflexivity].
    apply (dict_get_Some_elem k v d2 Hnd2) in E2. rewrite <- Hperm in E2.
    apply (dict_get_Some_elem k v d1 Hnd) in E2. congruence.
Qed.

(** The items of the pre-scan and its dictionary hold the same entries. *)
Lemma check_english_files_items_lookup (detect : str -> option string)
    (read_1000 : encoding -> string -> exc str) (files : list string)
    (name : string) :
  dict_get name (check_english_files_items detect read_1000 files)
  = check_english_files detect read_1000 files !! name.
Proof.
  induction files as [|p files IH] using rev_ind.
  - unfold check_english_files_items, check_english_files. simpl.
    now rewrite lookup_empty.
  - rewrite check_english_files_snoc.
    unfold check_english_files_items. rewrite fold_left_app. simpl.
    fold (check_english_files_items detect read_1000 files).
    rewrite dict_get_set, lookup_insert.
    destruct (String.eqb_spec (basename p) name) as [->|Hne].
    + now rewrite decide_True.
    + now rewrite decide_False.
Qed.

Lemma check_english_files_items_ok (detect : str -> option string)
    (read_1000 : encoding -> string -> exc str) (files : list string) :
  let results := check_english_files_items detect read_1000 files in
  NoDup (map fst results)
  /\ (length results <= length files)%nat
  /\ Forall (fun kv => exists p, p ∈ files
                         /\ snd kv = check_file detect read_1000 p) results.
Proof.
  induction files as [|p files IH] using rev_ind.
  - simpl. repeat split; [apply NoDup_nil_2|lia|constructor].
  - destruct IH as (Hnd & Hlen & Hall).
    unfold check_english_files_items in *. rewrite fold_left_app. simpl.
    set (results := fold_left _ files []) in *.
    split; [now apply dict_set_NoDup|]. split.
    + apply (f_equal length) in Hnd || idtac.
      assert (Hl : length (dict_set (basename p)
                             (check_file detect read_1000 p) results)
                   = length (map fst (dict_set (basename p)
                             (check_file detect read_1000 p) results)))
        by now rewrite length_map.
      rewrite Hl, dict_set_keys, length_app.
      destruct (dict_get (basename p) results);
        rewrite ?length_app, length_map; simpl; lia.
    + apply dict_set_Forall.
      * eapply Forall_impl; [exact Hall|]. intros kv (q & Hq & Hkv).
        exists q. split; [|exact Hkv]. apply elem_of_app. now left.
      * exists p. split; [|reflexivity]. apply elem_of_app. right.
        apply list_elem_of_here.
Qed.

Lemma classify_sample_is_english (detect : str -> option string)
    (on_error : scan_error) (raw : str) :
  let r := classify_sample detect on_error raw in
  is_english r = String.eqb (language r) "en".
Proof.
  unfold classify_sample. destruct (strip raw) as [|c s]; [reflexivity|].
  now destruct (detect (c :: s)).
Qed.

Lemma check_file_is_english (detect : str -> option string)
    (read_1000 : encoding -> string -> exc str) (p : string) :
  let r := check_file detect read_1000 p in
  is_english r = String.eqb (language r) "en".
Proof.
  unfold check_file.
  destruct (read_1000 utf_8 p) as [raw|[]];
    try apply classify_sample_is_english; try reflexivity.
  destruct (read_1000 latin1 p) as [raw|e];
    [apply classify_sample_is_english|reflexivity].
Qed.

(** X19.  The summary of a pre-scan.  The dictionary printed holds, in
    the order of first appearance, one entry per base name of the scanned
    files, the same entries as [check_english_files]; the total is at
    most the number of files scanned; and the number of English files is
    the count listed for [en] in the language distribution. *)
Theorem print_summary_of_scan (detect : str -> option string)
    (read_1000 : encoding -> string -> exc str) (files : list string) :
  let results := check_english_files_items detect read_1000 files in
  let s := print_summary results in
  (forall name,
     dict_get name results = check_english_files detect read_1000 files !! name)
  /\ NoDup (map fst results)
  /\ total s <= Z.of_nat (length files)
  /\ english_count s = count_of "en" (language_distribution s).
Proof.
  intros results s.
  destruct (check_english_files_items_ok detect read_1000 files)
    as (Hnd & Hlen & Hall). fold results in Hnd, Hlen, Hall.
  split; [intros name; apply check_english_files_items_lookup|].
  split; [exact Hnd|]. split; [subst s; simpl; lia|].
  subst s. simpl.
  destruct (fold_count_language (map snd results) [] (NoDup_nil_2)
              (List.Forall_nil _)) as (_ & Hn & _ & Hc).
  unfold count_of at 1.
  rewrite <- (dict_get_perm "en" _ _ Hn
               (symmetry (sorted_by_count_perm
                  (fold_left count_language (map snd results) [])))).
  fold (count_of "en" (fold_left count_language (map snd results) [])).
  rewrite Hc. unfold count_of at 1. simpl dict_get. rewrite Z.add_0_l.
  f_equal. clear -Hall.
  induction Hall as [|[name r] l (p & _ & Hr) Hl IH]; [reflexivity|].
  simpl in *. rewrite Hr, check_file_is_english.
  destruct (String.eqb _ "en"); simpl; now rewrite IH.
Qed.

(** ** File names *)

Lemma has_slash_app (a b : string) :
  has_slash (a ++ b) = has_slash a || has_slash b.
Proof.
  induction a as [|c a IH]; simpl; [reflexivity|].
  rewrite IH. now rewrite orb_assoc.
Qed.

Lemma basename_no_slash (name : string) :
  has_slash name = false -> basename name = name.
Proof.
  destruct name as [|c name]; [reflexivity|].
  intros H. cbn [basename]. now rewrite H.
Qed.

Lemma basename_after_slash (a name : string) :
  has_slash name = false -> basename (a ++ "/" ++ name) = name.
Proof.
  intros Hname. induction a as [|c a IH].
  - simpl. destruct name; [reflexivity|].
    apply basename_no_slash. exact Hname.
  - change ((String c a ++ "/" ++ name)%string)
      with (String c (a ++ "/" ++ name)).
    cbn [basename].
    assert (Hs : has_slash (String c (a ++ "/" ++ name)) = true).
    { cbn [has_slash]. rewrite has_slash_app. simpl.
      now rewrite !orb_true_r. }
    now rewrite Hs.
Qed.

Lemma endswith_slash_cons (c d : ascii) (path : string) :
  endswith (String c (String d path)) "/" = endswith (String d path) "/".
Proof.
  unfold endswith. cbn [String.length].
  rewrite !Nat.sub_succ, !Nat.sub_0_r. reflexivity.
Qed.

Lemma endswith_slash (path : string) :
  endswith path "/" = true -> exists a, path = (a ++ "/")%string.
Proof.
  induction path as [|c path IH]; [discriminate|].
  destruct path as [|d path].
  - unfold endswith. simpl.
    destruct (Ascii.eqb_spec c "/") as [->|]; [|discriminate].
    intros _. now exists ""%string.
  - rewrite endswith_slash_cons. intros H.
    destruct (IH H) as [a Ha]. exists (String c a).
    change ((String c a ++ "/")%string) with (String c (a ++ "/")).
    now rewrite Ha.
Qed.

Lemma string_app_nil_r (s : string) : (s ++ "")%string = s.
Proof.
  induction s as [|c s IH]; [reflexivity|].
  change ((String c s ++ "")%string) with (String c (s ++ "")).
  now rewrite IH.
Qed.

Lemma string_app_assoc (a b c : string) :
  ((a ++ b) ++ c)%string = (a ++ (b ++ c))%string.
Proof.
  induction a as [|x a IH]; [reflexivity|].
  change (((String x a ++ b) ++ c)%string) with (String x ((a ++ b) ++ c)).
  change ((String x a ++ (b ++ c))%string) with (String x (a ++ (b ++ c))).
  now rewrite IH.
Qed.

Lemma split_last_dot_ext (stem ext : string) :
  split_last_dot ext = None ->
  split_last_dot (stem ++ "." ++ ext) = Some (stem, ("." ++ ext)%string).
Proof.
  intros Hext. induction stem as [|c stem IH].
  - change (("" ++ "." ++ ext)%string) with (String "." ext).
    cbn [split_last_dot]. now rewrite Hext.
  - change ((String c stem ++ "." ++ ext)%string)
      with (String c (stem ++ "." ++ ext)).
    cbn [split_last_dot]. now rewrite IH.
Qed.

(** X20.  File names along the two scripts: a file found by the walk is
    scanned under its own name, for the base name of the joined path is
    the name; every file that pretokenize.py takes, prepare_dataset.py
    takes too; and a file [<stem>.txt] is tokenized into [<stem>.pt]. *)
Theorem discovered_names (path name stem : string) :
  has_slash name = false ->
  basename (os_path_join path name) = name
  /\ (is_txt_file name = true -> is_text_file name = true)
  /\ (name = (stem ++ ".txt")%string -> only_dots stem = false ->
      Pretokenize.output_name (os_path_join path name)
      = (stem ++ ".pt")%string).
Proof.
  intros Hname.
  assert (Hbase : basename (os_path_join path name) = name).
  { unfold os_path_join.
    assert (Hp : String.prefix "/" name = false).
    { destruct name as [|c rest]; [reflexivity|].
      simpl in Hname. apply orb_false_elim in Hname as [Hc _].
      unfold String.prefix.
      destruct (ascii_dec "/" c) as [<-|]; [|reflexivity].
      rewrite Ascii.eqb_refl in Hc. discriminate. }
    rewrite Hp.
    destruct (String.eqb path "" || endswith path "/") eqn:E.
    - apply orb_prop in E as [E|E].
      + apply String.eqb_eq in E. subst path.
        change (("" ++ name)%string) with name.
        now apply basename_no_slash.
      + apply endswith_slash in E as [a ->].
        rewrite string_app_assoc. now apply basename_after_slash.
    - now apply basename_after_slash. }
  split; [exact Hbase|]. split.
  - unfold is_text_file, is_txt_file. now intros ->.
  - intros -> Hstem. unfold Pretokenize.output_name. rewrite Hbase.
    unfold splitext.
    change ((stem ++ ".txt")%string) with ((stem ++ "." ++ "txt")%string).
    rewrite (split_last_dot_ext stem "txt" eq_refl), Hstem. reflexivity.
Qed.

Lemma discovered_names_witness :
  has_slash "combined_1.txt" = false
  /\ basename (os_path_join "out" "combined_1.txt") = "combined_1.txt"%string
  /\ Pretokenize.output_name (os_path_join "out" "combined_1.txt")
     = "combined_1.pt"%string.
Proof.
  assert (H : has_slash "combined_1.txt" = false) by reflexivity.
  split; [exact H|].
  destruct (discovered_names "out" "combined_1.txt" "combined_1" H)
    as (H1 & _ & H3).
  split; [exact H1|]. apply H3; reflexivity.
Defined.

(** ** The tokenizing run *)

Lemma for_each_app {S A : Type} (body : S -> A -> exc S) (xs ys : list A)
    (s : S) :
  for_each body (xs ++ ys) s = (for_each body xs s ≫= for_each body ys).
Proof.
  revert s. induction xs as [|x xs IH]; intros s; simpl; [reflexivity|].
  destruct (body s x) as [s'|e]; [rewrite !bind_ok; apply IH|reflexivity].
Qed.

Lemma enumerate_from_1_snoc {A : Type} (xs : list A) (x : A) :
  Pretokenize.enumerate_from_1 (xs ++ [x])
  = Pretokenize.enumerate_from_1 xs ++ [(Z.of_nat (length xs) + 1, x)].
Proof.
  unfold Pretokenize.enumerate_from_1. rewrite imap_app. simpl.
  now rewrite Nat.add_0_r.
Qed.

Section Tokenizing.

Variable encode : str -> list Z.
Variable fs : gmap string (list byte).

(** A step returns exactly when the file reads as UTF-8. *)
Lemma tokenize_step_ok (n : Z) (st st' : Pretokenize.state) (i : Z)
    (p : string) :
  Pretokenize.tokenize_step encode fs n st (i, p) = Ok st' ->
  (exists content, open_read fs utf_8 p = Ok content)
  /\ st' = {| Pretokenize.saved :=
                <[Pretokenize.output_name p := Pretokenize.tokens_of encode fs p]>
                  (Pretokenize.saved st);
              Pretokenize.total_tokens :=
                Pretokenize.total_tokens st
                + Z.of_nat (length (Pretokenize.tokens_of encode fs p));
              Pretokenize.progress :=
                if (i mod 10 =? 0) || (i =? n)
                then Pretokenize.progress st
                     ++ [(i, n, Pretokenize.total_tokens st
                                + Z.of_nat (length
                                     (Pretokenize.tokens_of encode fs p)))]
                else Pretokenize.progress st |}.
Proof.
  unfold Pretokenize.tokenize_step, Pretokenize.tokens_of. simpl.
  destruct (open_read fs utf_8 p) as [content|e]; [|discriminate].
  rewrite bind_ok. intros [= <-]. split; [now exists content|reflexivity].
Qed.

(** The state after a run over [files], whatever [total_files] is. *)
Lemma tokenize_run (n : Z) (files : list string) (st : Pretokenize.state) :
  for_each (Pretokenize.tokenize_step encode fs n)
    (Pretokenize.enumerate_from_1 files)
    {| Pretokenize.saved := ∅; Pretokenize.total_tokens := 0;
       Pretokenize.progress := [] |} = Ok st ->
  Forall (fun p => exists content, open_read fs utf_8 p = Ok content) files
  /\ Pretokenize.saved st
     = fold_left (fun m p => <[Pretokenize.output_name p
                               := Pretokenize.tokens_of encode fs p]> m)
         files ∅
  /\ Pretokenize.total_tokens st
     = Z.of_nat (sum_list_with
                   (fun p => length (Pretokenize.tokens_of encode fs p)) files)
  /\ map (fun line => fst (fst line)) (Pretokenize.progress st)
     = List.filter (fun i => (i mod 10 =? 0) || (i =? n))
         (map (fun k => Z.of_nat k + 1) (seq 0 (length files)))
  /\ (files <> [] -> Z.of_nat (length files) = n ->
      last (Pretokenize.progress st)
      = Some (n, n, Pretokenize.total_tokens st)).
Proof.
  revert st. induction files as [|p files IH] using rev_ind; intros st.
  - simpl. intros [= <-]. simpl.
    repeat split; try constructor. now intros H.
  - rewrite enumerate_from_1_snoc, for_each_app.
    destruct (for_each _ (Pretokenize.enumerate_from_1 files) _)
      as [st1|e] eqn:E; [rewrite bind_ok|discriminate].
    destruct (IH st1 eq_refl) as (Hread & Hsaved & Htotal & Hprog & _).
    simpl for_each.
    destruct (Pretokenize.tokenize_step encode fs n st1
                (Z.of_nat (length files) + 1, p)) as [st2|e] eqn:E2;
      [rewrite bind_ok|discriminate].
    intros [= <-].
    apply tokenize_step_ok in E2 as [Hp ->]. cbn [Pretokenize.saved
      Pretokenize.total_tokens Pretokenize.progress].
    split; [apply Forall_app; split; [exact Hread|now constructor]|].
    split; [rewrite fold_left_app; simpl; now rewrite Hsaved|].
    split; [rewrite sum_list_with_app, Htotal; simpl; lia|].
    split.
    + rewrite length_app. simpl length.
      replace (length files + 1)%nat with (S (length files)) by lia.
      rewrite seq_S, map_app, List.filter_app. simpl.
      destruct (((Z.of_nat (length files) + 1) mod 10 =? 0)
                || (Z.of_nat (length files) + 1 =? n));
        [rewrite map_app, Hprog|rewrite Hprog, app_nil_r]; reflexivity.
    + intros _ Hn. rewrite length_app in Hn. simpl in Hn.
      assert (Hi : (Z.of_nat (length files) + 1 =? n) = true) by lia.
      rewrite Hi, orb_true_r, last_snoc.
      replace (Z.of_nat (length files) + 1) with n by lia. reflexivity.
Qed.

Lemma saved_token_count_insert (m : gmap string (list Z)) (k : string)
    (v : list Z) :
  Pretokenize.saved_token_count (<[k := v]> m)
  = Pretokenize.saved_token_count m + Z.of_nat (length v)
    - match m !! k with
      | Some w => Z.of_nat (length w)
      | None => 0
      end.
Proof.
  unfold Pretokenize.saved_token_count.
  assert (Hcomm : forall (m' : gmap string (list Z)) j1 j2 z1 z2 y,
            j1 <> j2 -> m' !! j1 = Some z1 -> m' !! j2 = Some z2 ->
            Z.of_nat (length z1) + (Z.of_nat (length z2) + y)
            = Z.of_nat (length z2) + (Z.of_nat (length z1) + y))
    by (intros; lia).
  destruct (m !! k) as [w|] eqn:E.
  - rewrite <- insert_delete_eq.
    rewrite map_fold_insert_L;
      [|apply Hcomm|apply lookup_delete_eq].
    rewrite (map_fold_delete_L _ _ k w m); [|apply Hcomm|exact E]. lia.
  - rewrite map_fold_insert_L; [|apply Hcomm|exact E]. lia.
Qed.

Lemma fold_saved_lookup (before after : list string) (p : string) :
  (forall q, q ∈ after ->
     Pretokenize.output_name q <> Pretokenize.output_name p) ->
  fold_left (fun m q => <[Pretokenize.output_name q
                          := Pretokenize.tokens_of encode fs q]> m)
    (before ++ p :: after) (∅ : gmap string (list Z))
    !! Pretokenize.output_name p
  = Some (Pretokenize.tokens_of encode fs p).
Proof.
  induction after as [|q after IH] using rev_ind; intros Hafter.
  - rewrite fold_left_app. simpl. apply lookup_insert_eq.
  - change (before ++ p :: after ++ [q]) with (before ++ (p :: after) ++ [q]).
    rewrite app_assoc, fold_left_app. simpl.
    rewrite lookup_insert_ne.
    + apply IH. intros q' Hq'. apply Hafter, elem_of_app. now left.
    + apply Hafter, elem_of_app. right. apply list_elem_of_here.
Qed.

Lemma fold_saved_count (files : list string) :
  let m := fold_left (fun m q => <[Pretokenize.output_name q
                                   := Pretokenize.tokens_of encode fs q]> m)
             files (∅ : gmap string (list Z)) in
  Pretokenize.saved_token_count m
  <= Z.of_nat (sum_list_with
                 (fun p => length (Pretokenize.tokens_of encode fs p)) files)
  /\ (NoDup (map Pretokenize.output_name files) ->
      Pretokenize.saved_token_count m
      = Z.of_nat (sum_list_with
                    (fun p => length (Pretokenize.tokens_of encode fs p)) files))
  /\ (forall k, is_Some (m !! k)
        <-> k ∈ map Pretokenize.output_name files).
Proof.
  induction files as [|p files IH] using rev_ind.
  - simpl. split; [reflexivity|]. split; [reflexivity|].
    intros k. rewrite lookup_empty. split; [now intros [? ?]|].
    intros H. now apply elem_of_nil in H.
  - rewrite fold_left_app. simpl. destruct IH as (Hle & Heq & Hdom).
    set (m := fold_left _ files ∅) in *.
    rewrite saved_token_count_insert, sum_list_with_app. simpl.
    split; [destruct (m !! Pretokenize.output_name p); lia|]. split.
    + rewrite map_app. intros Hnd. apply NoDup_app in Hnd as (Hnd & Hnew & _).
      destruct (m !! Pretokenize.output_name p) as [w|] eqn:E.
      * exfalso. apply (Hnew (Pretokenize.output_name p)).
        -- apply Hdom. eauto.
        -- apply list_elem_of_here.
      * rewrite (Heq Hnd). lia.
    + intros k. rewrite map_app, elem_of_app, <- Hdom, lookup_insert.
      simpl. rewrite list_elem_of_singleton.
      destruct (decide (Pretokenize.output_name p = k)) as [->|Hne].
      * split; [auto|]. intros _. eauto.
      * split; [auto|]. intros [H|H]; [exact H|congruence].
Qed.

(** X21.  The tokens of a run that returns.  [total_tokens] is the sum
    of the token counts of all the files read, each text having the end
    marker appended before it is tokenized.  Every file has an output
    under its output name, but files with the same output name overwrite
    one another: the saved files hold at most [total_tokens] tokens, and
    exactly that many, each file under its own name, when the output
    names are all different. *)
Theorem pretokenize_tokens (walk : list (string * list string))
    (st : Pretokenize.state) :
  Pretokenize.main encode fs walk = Ok st ->
  let all_files := discover is_txt_file walk in
  Pretokenize.total_tokens st
  = Z.of_nat (sum_list_with
                (fun p => length (Pretokenize.tokens_of encode fs p)) all_files)
  /\ (forall p, p ∈ all_files ->
      exists content, open_read fs utf_8 p = Ok content
        /\ Pretokenize.tokens_of encode fs p
           = encode (content ++ py " <|endoftext|> ")
        /\ is_Some (Pretokenize.saved st !! Pretokenize.output_name p))
  /\ Pretokenize.saved_token_count (Pretokenize.saved st)
     <= Pretokenize.total_tokens st
  /\ (NoDup (map Pretokenize.output_name all_files) ->
      Pretokenize.saved_token_count (Pretokenize.saved st)
        = Pretokenize.total_tokens st
      /\ forall p, p ∈ all_files ->
         Pretokenize.saved st !! Pretokenize.output_name p
         = Some (Pretokenize.tokens_of encode fs p)).
Proof.
  unfold Pretokenize.main. intros H. cbv zeta in *.
  set (all_files := discover is_txt_file walk) in *.
  apply tokenize_run in H as (Hread & Hsaved & Htotal & _).
  destruct (fold_saved_count all_files) as (Hle & Heq & Hdom).
  rewrite <- Hsaved in Hle, Heq, Hdom.
  split; [exact Htotal|]. split; [|split; [lia|]].
  - intros p Hp.
    pose proof (proj1 (Forall_forall _ _) Hread p Hp) as [content Hc].
    exists content. split; [exact Hc|]. split.
    + unfold Pretokenize.tokens_of. now rewrite Hc.
    + apply Hdom. apply list_elem_of_fmap. now exists p.
  - intros Hnd. split; [rewrite (Heq Hnd); lia|].
    intros p Hp. apply list_elem_of_split in Hp as (before & after & Hsplit).
    rewrite Hsaved, Hsplit. apply fold_saved_lookup.
    intros q Hq Hname. rewrite Hsplit, map_app in Hnd. simpl in Hnd.
    apply NoDup_app in Hnd as (_ & _ & Hnd).
    apply NoDup_cons in Hnd as [Hnot _]. apply Hnot.
    rewrite <- Hname. apply list_elem_of_fmap. now exists q.
Qed.

(** X22.  The progress lines of a run that returns, each with the number
    of the file, the number of files and the tokens so far: one after
    every tenth file and one after the last file, and no other; the last
    line shows the final total. *)
Theorem pretokenize_progress (walk : list (string * list string))
    (st : Pretokenize.state) :
  Pretokenize.main encode fs walk = Ok st ->
  let n := length (discover is_txt_file walk) in
  map (fun line => fst (fst line)) (Pretokenize.progress st)
  = List.filter (fun i => (i mod 10 =? 0) || (i =? Z.of_nat n))
      (map (fun k => Z.of_nat k + 1) (seq 0 n))
  /\ (n <> 0%nat ->
      last (Pretokenize.progress st)
      = Some (Z.of_nat n, Z.of_nat n, Pretokenize.total_tokens st))
  /\ (n = 0%nat -> Pretokenize.progress st = []).
Proof.
  unfold Pretokenize.main. intros H. cbv zeta in *.
  apply tokenize_run in H as (_ & _ & _ & Hprog & Hlast).
  split; [exact Hprog|]. split.
  - intros Hn. apply Hlast; [|reflexivity].
    intros E. apply Hn. now rewrite E.
  - intros Hn. rewrite Hn in Hprog.
    exact (List.map_eq_nil _ _ Hprog).
Qed.

Lemma for_each_ok_steps {S A : Type} (body : S -> A -> exc S) (xs : list A) :
  forall s s', for_each body xs s = Ok s' ->
  forall x, x ∈ xs -> exists t t', body t x = Ok t'.
Proof.
  induction xs as [|y xs IH]; intros s s' H x Hx.
  - now apply elem_of_nil in Hx.
  - simpl in H. destruct (body s y) as [s1|e] eqn:E; [|discriminate].
    rewrite bind_ok in H. apply elem_of_cons in Hx as [->|Hx]; [eauto|].
    now apply (IH s1 s').
Qed.


End Tokenizing.

Lemma sample_run :
  exists st, Pretokenize.main sample_encode sample_fs sample_walk = Ok st
    /\ Pretokenize.total_tokens st = 149
    /\ Pretokenize.progress st = [(2, 2, 149)].
Proof.
  destruct (Pretokenize.main sample_encode sample_fs sample_walk)
    as [st|e] eqn:E; [|vm_compute in E; discriminate].
  exists st. split; [reflexivity|].
  vm_compute in E. injection E as <-. split; reflexivity.
Qed.

Lemma pretokenize_tokens_witness :
  exists st,
    Pretokenize.main sample_encode sample_fs sample_walk = Ok st
    /\ Pretokenize.saved_token_count (Pretokenize.saved st)
       <= Pretokenize.total_tokens st.
Proof.
  destruct sample_run as (st & H & _). exists st. split; [exact H|].
  exact (proj1 (proj2 (proj2
           (pretokenize_tokens sample_encode sample_fs sample_walk st H)))).
Defined.

Lemma pretokenize_progress_witness :
  exists st,
    Pretokenize.main sample_encode sample_fs sample_walk = Ok st
    /\ last (Pretokenize.progress st)
       = Some (2, 2, Pretokenize.total_tokens st).
Proof.
  destruct sample_run as (st & H & _). exists st. split; [exact H|].
  apply (proj1 (proj2
           (pretokenize_progress sample_encode sample_fs sample_walk st H))).
  vm_compute. discriminate.
Defined.


(** ** From the shards to the tokenizer *)

Lemma universal_newlines_plain_upto (n : nat) :
  forall s : str, (length s < n)%nat ->
  Forall (fun c => is_scalar_value c = true) s ->
  plain_text (universal_newlines s).
Proof.
  induction n as [|n IH]; intros s Hlen Hs; [lia|].
  destruct s as [|c s]; [constructor|].
  simpl in Hlen. inversion Hs as [|? ? Hc Hs']; subst.
  cbn [universal_newlines].
  destruct (N.eqb_spec c 13) as [->|Hc13].
  - destruct s as [|d s]; [repeat constructor; discriminate|].
    inversion Hs' as [|? ? Hd Hs'']; subst. simpl in Hlen.
    destruct (d =? nl)%N.
    + constructor; [split; [reflexivity|discriminate]|].
      apply IH; [lia|exact Hs''].
    + constructor; [split; [reflexivity|discriminate]|].
      apply IH; [simpl; lia|exact Hs'].
  - constructor; [now split|]. apply IH; [lia|exact Hs'].
Qed.

(** What a file read in text mode gives is plain text. *)
Lemma open_read_plain (fs : gmap string (list byte)) (enc : encoding)
    (p : string) (content : str) :
  open_read fs enc p = Ok content -> plain_text content.
Proof.
  unfold open_read, read_text. destruct (fs !! p) as [bs|]; [|discriminate].
  destruct (decode enc bs) as [t|] eqn:E; [|discriminate].
  simpl. intros [= <-].
  apply (universal_newlines_plain_upto (S (length t))); [lia|].
  now apply (decode_scalar enc bs).
Qed.

Lemma read_file_plain (fs : gmap string (list byte)) (fb : encoding)
    (st st1 : pipeline) (p : string) (content : str) :
  read_file fs fb st p = Ok (content, st1) -> plain_text content.
Proof.
  unfold read_file.
  destruct (open_read fs utf_8 p) as [c|[]] eqn:E; try discriminate.
  - intros [= <- _]. now apply (open_read_plain fs utf_8 p).
  - destruct (open_read fs fb p) as [c|e] eqn:E2; [|discriminate].
    rewrite bind_ok. intros [= <- _]. now apply (open_read_plain fs fb p).
Qed.

Lemma collapse_Forall_upto (P : codepoint -> Prop) (n : nat) :
  P nl ->
  forall s : str, (length s < n)%nat -> Forall P s -> Forall P (collapse s).
Proof.
  intros Hnl. induction n as [|n IH]; intros s Hlen Hs; [lia|].
  destruct s as [|c s]; [now simp collapse|].
  simpl in Hlen. inversion Hs as [|? ? Hc Hs']; subst.
  rewrite collapse_cons. destruct (c =? nl)%N.
  - destruct (match_ws_nl s) as [rest|] eqn:E.
    + destruct (match_ws_nl_split s rest E) as (ws & -> & _).
      apply Forall_app in Hs' as [_ Hrest].
      repeat constructor; try exact Hnl.
      apply IH; [rewrite length_app in Hlen; lia|exact Hrest].
    + constructor; [exact Hc|]. apply IH; [lia|exact Hs'].
  - constructor; [exact Hc|]. apply IH; [lia|exact Hs'].
Qed.

(** Cleaning keeps a plain text plain. *)
Lemma cleaning_plain (content : str) :
  plain_text content ->
  plain_text (normalize_blank_lines (remove_gutenberg_boilerplate content)).
Proof.
  intros H. rewrite normalize_blank_lines_collapse.
  apply (collapse_Forall_upto _
           (S (length (remove_gutenberg_boilerplate content))));
    [split; [reflexivity|discriminate]|lia|].
  destruct (remove_gutenberg_boilerplate_cut content) as [pre Hpre].
  unfold plain_text in H. rewrite Hpre in H.
  now apply Forall_app in H as [_ H].
Qed.

Lemma join_plain (separator : str) (docs : list str) :
  plain_text separator -> Forall plain_text docs ->
  plain_text (join separator docs).
Proof.
  intros Hsep. induction 1 as [|d docs Hd Hdocs IH]; [constructor|].
  destruct docs as [|d' docs]; [exact Hd|].
  change (join separator (d :: d' :: docs))
    with (d ++ separator ++ join separator (d' :: docs)).
  unfold plain_text in *. rewrite !Forall_app. auto.
Qed.

(** The documents that a run feeds to the accumulator are plain. *)
Lemma for_each_combine_plain (detect : str -> option string)
    (fs : gmap string (list byte)) (max_size_mb : Z) (separator : str)
    (fb : encoding) (file_paths : list string) :
  forall st st',
  for_each (combine_step detect fs max_size_mb separator fb) file_paths st
    = Ok st' ->
  exists docs,
    shard_acc st' = fold_left (add max_size_mb separator) docs (shard_acc st)
    /\ Forall plain_text docs.
Proof.
  induction file_paths as [|p ps IH]; intros st st'; simpl.
  - intros [= <-]. exists []. split; [reflexivity|constructor].
  - destruct (combine_step detect fs max_size_mb separator fb st p)
      as [st1|e] eqn:E; [rewrite bind_ok|discriminate].
    intros H. destruct (IH _ _ H) as (docs & Hacc & Hdocs).
    apply combine_step_cases in E as (content & st0 & R & Hcase).
    destruct (read_file_keeps_state _ _ _ _ _ _ R) as [Racc _].
    pose proof (read_file_plain _ _ _ _ _ _ R) as Hplain.
    destruct Hcase as [[_ ->]|[[_ ->]|(cleaned & Hf & ->)]];
      simpl in Hacc; rewrite Racc in Hacc.
    + now exists docs.
    + now exists docs.
    + exists (cleaned :: docs). split; [exact Hacc|].
      constructor; [|exact Hdocs].
      unfold filter_document in Hf.
      destruct (negb (is_english_using_langdetect detect content));
        [discriminate|]. cbv zeta in Hf.
      destruct (length _ <? 100)%nat; [discriminate|].
      injection Hf as <-. now apply cleaning_plain.
Qed.

Lemma utf8_encode_char_bytes (c : codepoint) :
  is_scalar_value c = true ->
  Forall (fun b => (b < 256)%N) (utf8_encode_char c).
Proof.
  intros Hc. unfold utf8_encode_char.
  assert (Hs : (c <= 1114111)%N) by (unfold is_scalar_value in Hc; lia).
  pose proof (N.mod_lt c 64 ltac:(lia)).
  pose proof (N.mod_lt (c / 64) 64 ltac:(lia)).
  pose proof (N.mod_lt (c / 4096) 64 ltac:(lia)).
  destruct (N.ltb_spec c 128); [repeat constructor; lia|].
  destruct (N.ltb_spec c 2048).
  { assert (c / 64 < 32)%N by (apply N.Div0.div_lt_upper_bound; lia).
    repeat constructor; lia. }
  destruct (N.ltb_spec c 65536).
  { assert (c / 4096 < 16)%N by (apply N.Div0.div_lt_upper_bound; lia).
    repeat constructor; lia. }
  assert (c / 262144 < 5)%N by (apply N.Div0.div_lt_upper_bound; lia).
  repeat constructor; lia.
Qed.

Lemma byte_of_N_to_N (n : N) : (n < 256)%N -> Byte.to_N (byte_of_N n) = n.
Proof.
  intros H. unfold byte_of_N. destruct (Byte.of_N n) as [b|] eqn:E.
  - now apply Byte.to_of_N.
  - apply Byte.of_N_None_iff in E. lia.
Qed.

Lemma universal_newlines_id (t : str) :
  Forall (fun c => c <> 13%N) t -> universal_newlines t = t.
Proof.
  induction 1 as [|c t Hc Ht IH]; [reflexivity|].
  cbn [universal_newlines].
  destruct (N.eqb_spec c 13); [contradiction|]. now rewrite IH.
Qed.

(** A plain text written to a file is read back as it is. *)
Lemma read_text_encode_file (t : str) :
  plain_text t -> read_text utf_8 (encode_file t) = Some t.
Proof.
  intros H. unfold read_text, encode_file, decode.
  assert (Hbytes : map Byte.to_N (map byte_of_N (utf8_encode t))
                   = utf8_encode t).
  { rewrite List.map_map. rewrite <- (List.map_id (utf8_encode t)) at 2.
    apply List.map_ext_in. intros b Hb. apply byte_of_N_to_N.
    unfold utf8_encode in Hb. apply in_flat_map in Hb as (c & Hc & Hb).
    assert (Hsc : is_scalar_value c = true).
    { unfold plain_text in H.
      apply (proj1 (List.Forall_forall _ _) H c Hc). }
    apply (proj1 (List.Forall_forall _ _) (utf8_encode_char_bytes c Hsc) b Hb). }
  rewrite Hbytes, decode_utf_8_encode.
  - simpl. f_equal. apply universal_newlines_id.
    eapply Forall_impl; [exact H|]. now intros c [_ Hc].
  - eapply Forall_impl; [exact H|]. now intros c [Hc _].
Qed.

(** X24.  What prepare_dataset.py writes, pretokenize.py reads: with a
    plain separator, the text of every file written by a run, once
    written as UTF-8, decodes as UTF-8 to the same text; so a file with
    these bytes is opened without error and tokenized as the text of the
    shard followed by the end marker. *)
Theorem shards_read_back (detect : str -> option string)
    (encode : str -> list Z)
    (fs : gmap string (list byte)) (max_size_mb : Z) (separator : str)
    (fb : encoding) (file_paths : list string) (n : Z) (st : pipeline) :
  plain_text separator ->
  combine_files detect fs max_size_mb separator fb file_paths = Ok (n, st) ->
  Forall (fun f =>
    read_text utf_8 (encode_file (shard_text f)) = Some (shard_text f)
    /\ forall (out : gmap string (list byte)) (p : string),
         out !! p = Some (encode_file (shard_text f)) ->
         open_read out utf_8 p = Ok (shard_text f)
         /\ Pretokenize.tokens_of encode out p
            = encode (shard_text f ++ py " <|endoftext|> "))
    (written (shard_acc st)).
Proof.
  intros Hsep H. unfold combine_files in H.
  destruct (for_each _ file_paths start) as [st1|e] eqn:E; [|discriminate].
  rewrite bind_ok in H. injection H as <- <-.
  destruct (for_each_combine_plain _ _ _ _ _ _ _ _ E) as (docs & Hacc & Hdocs).
  simpl in *. rewrite Hacc. fold (feed max_size_mb separator docs).
  fold (shards max_size_mb separator docs).
  pose proof (shards_documents max_size_mb separator docs) as Hcat.
  pose proof (shards_text max_size_mb separator docs) as Htext.
  assert (Hplain : Forall (fun f => plain_text (shard_text f))
                     (shards max_size_mb separator docs)).
  { rewrite <- Hcat in Hdocs. clear -Hdocs Htext Hsep.
    induction Htext as [|f l Hf Hl IH]; [constructor|].
    simpl in Hdocs. apply Forall_app in Hdocs as [Hfdocs Hrest].
    constructor; [|now apply IH].
    rewrite Hf. now apply join_plain. }
  eapply Forall_impl; [exact Hplain|]. intros f Hf.
  pose proof (read_text_encode_file (shard_text f) Hf) as Hread.
  split; [exact Hread|]. intros out p Hp.
  assert (Hopen : open_read out utf_8 p = Ok (shard_text f)).
  { unfold open_read. now rewrite Hp, Hread. }
  split; [exact Hopen|]. unfold Pretokenize.tokens_of. now rewrite Hopen.
Qed.

Lemma shards_read_back_witness :
  plain_text (py "<|endoftext|>")
  /\ exists n st,
       combine_files sample_detect sample_fs 500 (py "<|endoftext|>") latin1
         ["fr.txt"; "en.txt"]%string = Ok (n, st)
       /\ Forall (fun f =>
            read_text utf_8 (encode_file (shard_text f)) = Some (shard_text f))
            (written (shard_acc st)).
Proof.
  assert (Hsep : plain_text (py "<|endoftext|>")).
  { unfold plain_text. apply Forall_forall. intros c Hc.
    vm_compute in Hc. repeat (apply elem_of_cons in Hc as [->|Hc];
      [split; [reflexivity|discriminate]|]).
    now apply elem_of_nil in Hc. }
  split; [exact Hsep|].
  destruct (combine_files sample_detect sample_fs 500 (py "<|endoftext|>")
              latin1 ["fr.txt"; "en.txt"]%string) as [[n st]|e] eqn:E;
    [|vm_compute in E; discriminate].
  exists n, st. split; [reflexivity|].
  eapply Forall_impl;
    [exact (shards_read_back sample_detect sample_encode _ _ _ _ _ _ _
              Hsep E)|].
  now intros f [Hf _].
Defined.
